(** * SlackStampSender: the reaction relay of [app.py]

    A shallow embedding of the webhook relay: the Slack reaction handler
    [slack_events], the message resolver [fetch_slack_message], the article
    parser [parse_article_from_message], the record locator
    [find_notion_page_by_url] and the score writer [update_notion_score].

    Python values are the decoded JSON values the handler receives.  Remote
    services are oracles of a [world]; every remote call and every logger
    call is recorded in a trace, and a Python exception is an error value
    that cuts the rest of the computation short. *)

From Stdlib Require Import List ZArith NArith Bool String Ascii Lia.
Import ListNotations.

Set Implicit Arguments.
Set Warnings "-register-all".

(** ** Python strings

    A Python [str] is a sequence of Unicode code points. *)

Definition char := N.
Definition str := list char.

Definition u (s : string) : str :=
  map N_of_ascii (list_ascii_of_string s).

Definition str_eqb (a b : str) : bool :=
  if list_eq_dec N.eq_dec a b then true else false.

(** The line boundaries of [str.splitlines]:
    LF, VT, FF, CR, FS, GS, RS, NEL, LS and PS (CR LF counts once). *)
Definition is_linebreak (c : char) : bool :=
  existsb (N.eqb c) [10; 11; 12; 13; 28; 29; 30; 133; 8232; 8233]%N.

(** The characters [str.isspace] accepts, which [str.strip()] removes. *)
Definition is_space (c : char) : bool :=
  (((9 <=? c) && (c <=? 13)) || ((28 <=? c) && (c <=? 32))
   || (c =? 133) || (c =? 160) || (c =? 5760)
   || ((8192 <=? c) && (c <=? 8202))
   || (c =? 8232) || (c =? 8233) || (c =? 8239) || (c =? 8287)
   || (c =? 12288))%N.

(** [splitlines_from cur s]: [cur] is the line being read, reversed. *)
Fixpoint splitlines_from (cur : str) (s : str) : list str :=
  match s with
  | [] => match cur with [] => [] | _ => [rev cur] end
  | c :: rest =>
      if (c =? 13)%N then
        match rest with
        | 10%N :: rest' => rev cur :: splitlines_from [] rest'
        | _ => rev cur :: splitlines_from [] rest
        end
      else if is_linebreak c then rev cur :: splitlines_from [] rest
      else splitlines_from (c :: cur) rest
  end.

Definition splitlines (s : str) : list str := splitlines_from [] s.

Fixpoint dropwhile (p : char -> bool) (s : str) : str :=
  match s with
  | [] => []
  | c :: rest => if p c then dropwhile p rest else s
  end.

(** [s.strip()] and [s.strip(chars)] at a predicate on characters. *)
Definition strip_by (p : char -> bool) (s : str) : str :=
  rev (dropwhile p (rev (dropwhile p s))).

Definition strip (s : str) : str := strip_by is_space s.

Definition strip_chars (chars : str) (s : str) : str :=
  strip_by (fun c => existsb (N.eqb c) chars) s.

Definition startswith (s : str) (c : char) : bool :=
  match s with
  | c' :: _ => (c' =? c)%N
  | [] => false
  end.

Definition endswith (s : str) (c : char) : bool := startswith (rev s) c.

(** The slice [s[1:-1]]. *)
Definition slice_1_m1 (s : str) : str := removelast (tl s).

(** [sep.join(parts)]. *)
Fixpoint join (sep : str) (parts : list str) : str :=
  match parts with
  | [] => []
  | [p] => p
  | p :: ps => p ++ sep ++ join sep ps
  end.

Fixpoint is_prefix (p s : str) : bool :=
  match p, s with
  | [], _ => true
  | a :: p', b :: s' => (a =? b)%N && is_prefix p' s'
  | _ :: _, [] => false
  end.

(** [p in s] on two strings. *)
Fixpoint is_substring (p s : str) : bool :=
  is_prefix p s ||
  match s with
  | [] => false
  | _ :: s' => is_substring p s'
  end.

(** ** Decoded JSON values

    An object is the decoder's dict: its items in insertion order, every key
    once.  A number without fraction or exponent decodes to an [int], any
    other to a [float]; the decoder also accepts [NaN], [Infinity] and
    [-Infinity]. *)

(** A Python [float]: not-a-number, an infinity, or the finite value
    [m * 2^e] (every double is such a value). *)
Inductive pyfloat : Type :=
| FNaN
| FInf (negative : bool)
| FFinite (m e : Z).

Inductive json : Type :=
| JNull
| JBool (b : bool)
| JInt (n : Z)
| JStr (s : str)
| JArr (l : list json)
| JObj (o : list (str * json))
| JFloat (f : pyfloat).

Definition dict := list (str * json).

Fixpoint lookup (k : str) (o : dict) : option json :=
  match o with
  | [] => None
  | (k', v) :: o' => if str_eqb k k' then Some v else lookup k o'
  end.

(** [d.get(k, default)] on a dict. *)
Definition dict_get (o : dict) (k : str) (default : json) : json :=
  match lookup k o with
  | Some v => v
  | None => default
  end.

(** [m1 * 2^e1 = m2 * 2^e2]. *)
Definition dyadic_eqb (m1 e1 m2 e2 : Z) : bool :=
  (if e1 <=? e2 then m1 =? m2 * 2 ^ (e2 - e1)
   else m1 * 2 ^ (e1 - e2) =? m2)%Z.

(** [==] on two floats: not-a-number equals nothing. *)
Definition float_eqb (a b : pyfloat) : bool :=
  match a, b with
  | FInf s, FInf t => Bool.eqb s t
  | FFinite m1 e1, FFinite m2 e2 => dyadic_eqb m1 e1 m2 e2
  | _, _ => false
  end.

(** [==] between a float and an [int], compared by exact value. *)
Definition float_eq_int (a : pyfloat) (n : Z) : bool :=
  match a with
  | FFinite m e => dyadic_eqb m e n 0
  | _ => false
  end.

(** The decoder hands out one [NaN] object: inside lists and dicts, where
    comparison tries identity first, it counts as equal to itself. *)
Definition same_nan (x y : json) : bool :=
  match x, y with
  | JFloat FNaN, JFloat FNaN => true
  | _, _ => false
  end.

(** Python's [==] on decoded values ([True == 1 == 1.0], dicts compare as
    maps). *)
Fixpoint py_eq (x y : json) {struct x} : bool :=
  match x, y with
  | JNull, JNull => true
  | JBool a, JBool b => Bool.eqb a b
  | JBool a, JInt n => ((if a then 1 else 0) =? n)%Z
  | JInt n, JBool a => (n =? (if a then 1 else 0))%Z
  | JInt a, JInt b => (a =? b)%Z
  | JBool a, JFloat f => float_eq_int f (if a then 1 else 0)
  | JFloat f, JBool a => float_eq_int f (if a then 1 else 0)
  | JInt n, JFloat f => float_eq_int f n
  | JFloat f, JInt n => float_eq_int f n
  | JFloat f, JFloat g => float_eqb f g
  | JStr a, JStr b => str_eqb a b
  | JArr xs, JArr ys =>
      (fix all2 (xs ys : list json) : bool :=
         match xs, ys with
         | [], [] => true
         | x' :: xs', y' :: ys' =>
             (same_nan x' y' || py_eq x' y') && all2 xs' ys'
         | _, _ => false
         end) xs ys
  | JObj xo, JObj yo =>
      Nat.eqb (List.length xo) (List.length yo) &&
      (fix items (xo : list (str * json)) : bool :=
         match xo with
         | [] => true
         | (k, v) :: xo' =>
             match lookup k yo with
             | Some v' => same_nan v v' || py_eq v v'
             | None => false
             end && items xo'
         end) xo
  | _, _ => false
  end.

(** Truth value of a decoded value ([bool(x)]). *)
Definition truthy (x : json) : bool :=
  match x with
  | JNull => false
  | JBool b => b
  | JInt n => negb (n =? 0)%Z
  | JStr s => match s with [] => false | _ => true end
  | JArr l => match l with [] => false | _ => true end
  | JObj o => match o with [] => false | _ => true end
  | JFloat (FFinite m _) => negb (m =? 0)%Z
  | JFloat _ => true
  end.

(** [x in t] for a tuple [t]. *)
Definition py_in (x : json) (t : list json) : bool := existsb (py_eq x) t.

(** ** Exceptions, the trace and the monad of handler code *)

(** The exceptions the handler's own operations raise, and [RemoteError]
    for whatever a remote client raises (a subclass of [Exception]). *)
Inductive exn : Type :=
| AttributeError
| TypeError
| KeyError
| IndexError
| RemoteError (what : str)
| ValueError
| UnicodeEncodeError.

Inductive level : Type := DEBUG | ERROR.

Inductive logarg : Type :=
| V (v : json)
| E (e : exn).

(** What a run leaves behind: logger calls (level, format, arguments) and
    the three kinds of remote call. *)
Inductive event : Type :=
| Log (lvl : level) (fmt : string) (args : list logarg)
| SlackReplies (channel ts : json)
| NotionQuery (article_url : str)
| NotionUpdate (page_id : json) (score : Z).

(** A computation leaves a trace and either raises or returns. *)
Definition M (A : Type) : Type := (list event * (exn + A))%type.

Definition ret {A} (a : A) : M A := ([], inr a).
Definition raise {A} (e : exn) : M A := ([], inl e).
Definition emit (ev : event) : M unit := ([ev], inr tt).
Definition lift {A} (r : exn + A) : M A := ([], r).

Definition bind {A B} (m : M A) (f : A -> M B) : M B :=
  match m with
  | (t, inl e) => (t, inl e)
  | (t, inr a) => let (t', r) := f a in (t ++ t', r)
  end.

Notation "x <- m ;; k" := (bind m (fun x => k))
  (at level 61, m at next level, right associativity).
Notation "m ;;; k" := (bind m (fun _ => k))
  (at level 61, right associativity).

Definition trace_of {A} (m : M A) : list event := fst m.
Definition result_of {A} (m : M A) : exn + A := snd m.

Definition is_remote_call (ev : event) : bool :=
  match ev with
  | Log _ _ _ => false
  | _ => true
  end.

Definition remote_calls (t : list event) : list event :=
  filter is_remote_call t.

Definition logger_debug (fmt : string) (args : list logarg) : M unit :=
  emit (Log DEBUG fmt args).
Definition logger_error (fmt : string) (args : list logarg) : M unit :=
  emit (Log ERROR fmt args).

(** ** Python operations that can raise *)

(** [x.get(k, default)]: only a dict has [get]. *)
Definition py_get (x : json) (k : str) (default : json) : M json :=
  match x with
  | JObj o => ret (dict_get o k default)
  | _ => raise AttributeError
  end.

(** [k in x] for a string [k]. *)
Definition py_contains (k : str) (x : json) : M bool :=
  match x with
  | JObj o => ret (match lookup k o with Some _ => true | None => false end)
  | JArr l => ret (existsb (fun e => py_eq e (JStr k)) l)
  | JStr s => ret (is_substring k s)
  | _ => raise TypeError
  end.

(** [x[k]] for a string [k]. *)
Definition py_getitem (x : json) (k : str) : M json :=
  match x with
  | JObj o => match lookup k o with
              | Some v => ret v
              | None => raise KeyError
              end
  | _ => raise TypeError
  end.

(** [x[0]]. *)
Definition py_first (x : json) : M json :=
  match x with
  | JArr (v :: _) => ret v
  | JStr (c :: _) => ret (JStr [c])
  | JArr [] | JStr [] => raise IndexError
  | JObj _ => raise KeyError
  | _ => raise TypeError
  end.

(** What [for msg in x] iterates over. *)
Definition py_iter (x : json) : M (list json) :=
  match x with
  | JArr l => ret l
  | JObj o => ret (map (fun kv => JStr (fst kv)) o)
  | JStr s => ret (map (fun c => JStr [c]) s)
  | _ => raise TypeError
  end.

(** ** Configuration and remote services *)

Record JSONResponse : Type := mkResponse {
  content : json;
  status_code : Z
}.

(** A lone surrogate, the one code point UTF-8 does not encode. *)
Definition is_surrogate (c : char) : bool :=
  ((55296 <=? c) && (c <=? 57343))%N.

Definition str_encodable (s : str) : bool :=
  forallb (fun c => negb (is_surrogate c)) s.

(** A not-a-number or an infinity somewhere in a value. *)
Fixpoint has_nonfinite (x : json) : bool :=
  match x with
  | JFloat FNaN | JFloat (FInf _) => true
  | JArr l =>
      (fix any (l : list json) : bool :=
         match l with
         | [] => false
         | v :: l' => has_nonfinite v || any l'
         end) l
  | JObj o =>
      (fix any (o : list (str * json)) : bool :=
         match o with
         | [] => false
         | (_, v) :: o' => has_nonfinite v || any o'
         end) o
  | _ => false
  end.

(** Every string of a value, keys included, encodes in UTF-8. *)
Fixpoint utf8_encodable (x : json) : bool :=
  match x with
  | JStr s => str_encodable s
  | JArr l =>
      (fix all (l : list json) : bool :=
         match l with
         | [] => true
         | v :: l' => utf8_encodable v && all l'
         end) l
  | JObj o =>
      (fix all (o : list (str * json)) : bool :=
         match o with
         | [] => true
         | (k, v) :: o' => str_encodable k && utf8_encodable v && all o'
         end) o
  | _ => true
  end.

(** What rendering a response's content raises: the response class
    serialises at construction with [allow_nan=False] and without ASCII
    escapes, then encodes the text in UTF-8. *)
Definition render_error (content : json) : option exn :=
  if has_nonfinite content then Some ValueError
  else if utf8_encodable content then None
  else Some UnicodeEncodeError.

(** [JSONResponse(content, status_code=...)]. *)
Definition new_JSONResponse (content : json) (status_code : Z)
  : M JSONResponse :=
  match render_error content with
  | Some e => raise e
  | None => ret (mkResponse content status_code)
  end.

Record article : Type := mkArticle {
  title : str;
  url : str;
  summary : str
}.

Definition article_dict (a : article) : json :=
  JObj [(u "title", JStr (title a)); (u "url", JStr (url a));
        (u "summary", JStr (summary a))].

(** The remote services, each answering with the decoded response or raising:
    [conversations.replies] at (channel, ts), the database query filtered on a
    URL, and the page update of [my_score]. *)
Record world : Type := mkWorld {
  slack_replies : json -> json -> exn + json;
  notion_query : str -> exn + json;
  notion_update : json -> Z -> exn + json
}.

(** ** The relay *)

Definition nl : str := [10%N].

Definition message_response (msg : string) : JSONResponse :=
  mkResponse (JObj [(u "message", JStr (u msg))]) 200.

(** The content [{"message": msg}] of a status response. *)
Definition message_content (msg : string) : json :=
  JObj [(u "message", JStr (u msg))].

(** The reactions the primary endpoint processes, and those it scores 1. *)
Definition recognized_reactions : list json :=
  map (fun s => JStr (u s)) ["+1"; "thumbsup"; "o"; "thumbsdown"; "-1"; "x"]%string.
Definition positive_reactions : list json :=
  map (fun s => JStr (u s)) ["+1"; "thumbsup"; "o"]%string.

(** [score] as lines 138-141 assign it. *)
Definition reaction_score (reaction : json) : Z :=
  if py_in reaction positive_reactions then 1 else 0.

(** [parse_article_from_message(text)]; [None] is the null result. *)
Definition parse_article_from_message (text : str) : M (option article) :=
  let lines := splitlines text in
  if (List.length lines <? 2)%nat then
    logger_debug "Insufficient lines in message: %s" [V (JStr text)];;;
    ret None
  else
    let title := strip_chars (u "*") (strip (nth 0 lines [])) in
    let url_line := strip (nth 1 lines []) in
    let url :=
      if startswith url_line 60%N && endswith url_line 62%N
      then slice_1_m1 url_line else url_line in
    let summary :=
      if (2 <? List.length lines)%nat then join nl (skipn 2 lines) else [] in
    let article := mkArticle title url summary in
    logger_debug "Parsed article: %s" [V (article_dict article)];;;
    ret (Some article).

Section Relay.

Variable SLACK_CHANNEL : str.
Variable w : world.

(** The [for msg in data["messages"]] loop and what follows it. *)
Fixpoint scan_messages (ts thread_ts : json) (msgs : list json) : M json :=
  match msgs with
  | [] =>
      logger_error "Message with ts %s not found in thread %s replies"
        [V ts; V thread_ts];;;
      ret JNull
  | msg :: rest =>
      msg_ts <- py_get msg (u "ts") JNull;;
      if py_eq msg_ts ts then
        message_text <- py_get msg (u "text") JNull;;
        logger_debug "Fetched threaded slack message text: %s"
          [V message_text];;;
        ret message_text
      else scan_messages ts thread_ts rest
  end.

Definition fetch_slack_message (channel ts thread_ts : json) : M json :=
  logger_debug "Fetching message for channel %s at ts %s, thread_ts: %s"
    [V channel; V ts; V thread_ts];;;
  emit (SlackReplies channel ts);;;
  data <- lift (slack_replies w channel ts);;
  ok <- py_get data (u "ok") JNull;;
  failed <- (if negb (truthy ok) then ret true
             else has <- py_contains (u "messages") data;; ret (negb has));;
  if failed : bool then
    logger_error "Slack API error in conversations.replies: %s" [V data];;;
    ret JNull
  else
    messages <- py_getitem data (u "messages");;
    msgs <- py_iter messages;;
    scan_messages ts thread_ts msgs.

Definition find_notion_page_by_url (article_url : str) : M json :=
  emit (NotionQuery article_url);;;
  response <- lift (notion_query w article_url);;
  results <- py_get response (u "results") (JArr []);;
  logger_debug "Notion query results for URL %s: %s"
    [V (JStr article_url); V results];;;
  page_id <- (if truthy results
              then first <- py_first results;; py_getitem first (u "id")
              else ret JNull);;
  logger_debug "Found Notion page ID: %s for URL: %s"
    [V page_id; V (JStr article_url)];;;
  ret page_id.

Definition update_notion_score (page_id : json) (score : Z) : M json :=
  emit (NotionUpdate page_id score);;;
  match notion_update w page_id score with
  | inr result =>
      logger_debug "Notion update response for page %s: %s"
        [V page_id; V result];;;
      logger_debug "Successfully updated Notion page %s with score %s"
        [V page_id; V (JInt score)];;;
      ret result
  | inl e =>
      logger_error "Error updating Notion page %s: %s" [V page_id; E e];;;
      raise e
  end.

(** [text.splitlines()] exists on a [str] only. *)
Definition parse_message (message_text : json) : M (option article) :=
  match message_text with
  | JStr text => parse_article_from_message text
  | _ => raise AttributeError
  end.

(** The handler of [POST /slack/events] at the decoded request body. *)
Definition slack_events (data : json) : M JSONResponse :=
  logger_debug "Received Slack event data: %s" [V data];;;
  has_challenge <- py_contains (u "challenge") data;;
  if has_challenge : bool then
    challenge <- py_getitem data (u "challenge");;
    new_JSONResponse (JObj [(u "challenge", challenge)]) 200
  else
    event <- py_get data (u "event") (JObj []);;
    type <- py_get event (u "type") JNull;;
    if py_eq type (JStr (u "reaction_added")) then
      item <- py_get event (u "item") (JObj []);;
      channel <- py_get item (u "channel") JNull;;
      logger_debug "Processing reaction event from channel: %s" [V channel];;;
      if negb (py_eq channel (JStr SLACK_CHANNEL)) then
        logger_debug "Channel %s not monitored. Ignoring." [V channel];;;
        new_JSONResponse (message_content "Channel not monitored") 200
      else
        reaction <- py_get event (u "reaction") JNull;;
        logger_debug "Reaction received: %s" [V reaction];;;
        if negb (py_in reaction recognized_reactions) then
          logger_debug "Reaction %s not processed" [V reaction];;;
          new_JSONResponse (message_content "Reaction not processed") 200
        else
          let score := reaction_score reaction in
          item <- py_get event (u "item") (JObj []);;
          ts <- py_get item (u "ts") JNull;;
          thread_ts <- py_get item (u "thread_ts") JNull;;
          message_text <- fetch_slack_message channel ts thread_ts;;
          if negb (truthy message_text) then
            logger_error "Failed to fetch message for ts: %s" [V ts];;;
            new_JSONResponse (message_content "Message fetch failed") 200
          else
            parsed <- parse_message message_text;;
            match parsed with
            | None =>
                logger_error "Article parsing failed for message: %s"
                  [V message_text];;;
                new_JSONResponse (message_content "Article parse failed") 200
            | Some article =>
                notion_page_id <- find_notion_page_by_url (url article);;
                if negb (truthy notion_page_id) then
                  logger_error "Notion page not found for URL: %s"
                    [V (JStr (url article))];;;
                  new_JSONResponse (message_content "Notion page not found") 200
                else
                  update_resp <- update_notion_score notion_page_id score;;
                  logger_debug "Notion update completed with response: %s"
                    [V update_resp];;;
                  new_JSONResponse
                    (JObj [(u "message", JStr (u "Notion updated"));
                           (u "response", update_resp)]) 200
            end
    else
      logger_debug "Unhandled event type." [];;;
      new_JSONResponse (message_content "Event type not handled") 200.

End Relay.

(** ** Vocabulary of the statements *)

(** The reactions the [else] branch of line 140 is written for. *)
Definition negative_reactions : list json :=
  map (fun s => JStr (u s)) ["-1"; "thumbsdown"; "x"]%string.

(** Angle brackets removed when the string has both. *)
Definition unbracket (s : str) : str :=
  if startswith s 60%N && endswith s 62%N then slice_1_m1 s else s.

Definition line (i : nat) (text : str) : str := nth i (splitlines text) [].

(** The parser's contract read word for word: asterisks stripped from line 0,
    brackets stripped from line 1 or line 1 verbatim, the rest rejoined. *)
Definition article_as_worded (text : str) : article :=
  mkArticle (strip_chars (u "*") (line 0 text))
            (unbracket (line 1 text))
            (join nl (skipn 2 (splitlines text))).

Definition parser_contract_as_worded (text : str) : Prop :=
  (2 <= List.length (splitlines text))%nat ->
  result_of (parse_article_from_message text) =
  inr (Some (article_as_worded text)).

(** The Article invariant read word for word. *)
Definition url_invariant_as_worded (text : str) : Prop :=
  forall a, result_of (parse_article_from_message text) = inr (Some a) ->
            url a <> [] /\ url a = unbracket (line 1 text).

Definition example_text : str :=
  u "*My Title*" ++ nl ++ u "<https://example.com/a>" ++ nl ++
  u "Line1" ++ nl ++ u "Line2".

Definition example_article : article :=
  mkArticle (u "My Title") (u "https://example.com/a")
            (u "Line1" ++ nl ++ u "Line2").

(** A message of the reply list carries the requested timestamp. *)
Definition has_ts (ts : json) (msg : dict) : bool :=
  py_eq (dict_get msg (u "ts") JNull) ts.

Definition first_match (ts : json) (msgs : list dict) : option dict :=
  find (has_ts ts) msgs.

(** A reply of [conversations.replies]: an object whose [messages], when
    present, is a list of objects. *)
Definition replies_shape (o : dict) (msgs : list dict) : Prop :=
  forall m, lookup (u "messages") o = Some m -> m = JArr (map JObj msgs).

Definition not_ok (o : dict) : Prop := truthy (dict_get o (u "ok") JNull) = false.

(** The resolver's failure conditions read word for word. *)
Definition resolver_null_as_worded (r : exn + json) (ts : json) (o : dict)
    (msgs : list dict) : Prop :=
  r = inr JNull <->
  (not_ok o \/ lookup (u "messages") o = None \/ first_match ts msgs = None).

(** A reply whose only message carries the timestamp and no text, and a
    world answering with it. *)
Definition textless_reply : dict :=
  [(u "ok", JBool true);
   (u "messages", JArr [JObj [(u "ts", JStr (u "1"))]])].

Definition textless_world : world :=
  mkWorld (fun _ _ => inr (JObj textless_reply))
          (fun _ => inr (JObj []))
          (fun _ _ => inr (JObj [])).

(** The notification of a reaction on the message of timestamp 1. *)
Definition reaction_body (reaction channel : string) : json :=
  JObj [(u "event",
         JObj [(u "type", JStr (u "reaction_added"));
               (u "reaction", JStr (u reaction));
               (u "item", JObj [(u "channel", JStr (u channel));
                                (u "ts", JStr (u "1"))])])].

(** A world where the message is the example text and its page is found,
    and whose page update raises. *)
Definition faulty_world : world :=
  mkWorld (fun _ _ =>
             inr (JObj [(u "ok", JBool true);
                        (u "messages",
                         JArr [JObj [(u "ts", JStr (u "1"));
                                     (u "text", JStr example_text)]])]))
          (fun _ => inr (JObj [(u "results",
                                JArr [JObj [(u "id", JStr (u "page"))]])]))
          (fun _ _ => inl (RemoteError (u "boom"))).

(** The body of an event notification: an object without [challenge] whose
    [event] is the object [ev], [it] being the event's [item]. *)
Definition event_body (data : json) (ev it : dict) : Prop :=
  exists o, data = JObj o /\ lookup (u "challenge") o = None /\
            dict_get o (u "event") (JObj []) = JObj ev /\
            dict_get ev (u "item") (JObj []) = JObj it.

(** The content of the response to a completed update. *)
Definition success_content (update_resp : json) : json :=
  JObj [(u "message", JStr (u "Notion updated")); (u "response", update_resp)].

(** The handshake read word for word: whatever the value of [challenge],
    the answer echoes it. *)
Definition challenge_echo_as_worded (channel : str) (w : world) (o : dict)
    (v : json) : Prop :=
  lookup (u "challenge") o = Some v ->
  result_of (slack_events channel w (JObj o)) =
  inr (mkResponse (JObj [(u "challenge", v)]) 200).

Definition reaction_added (ev : dict) : bool :=
  py_eq (dict_get ev (u "type") JNull) (JStr (u "reaction_added")).

Definition reaction_of (ev : dict) : json := dict_get ev (u "reaction") JNull.

Section Gates.

Variable SLACK_CHANNEL : str.
Variable w : world.

Definition monitored (it : dict) : bool :=
  py_eq (dict_get it (u "channel") JNull) (JStr SLACK_CHANNEL).

Definition recognized (ev : dict) : bool :=
  py_in (reaction_of ev) recognized_reactions.

(** A [reaction_added] event of the monitored channel with a recognized
    reaction: what passes the receiver's gates. *)
Definition accepted_event (data : json) (ev it : dict) : Prop :=
  event_body data ev it /\ reaction_added ev = true /\
  monitored it = true /\ recognized ev = true.

Definition resolve (it : dict) : M json :=
  fetch_slack_message w (JStr SLACK_CHANNEL)
    (dict_get it (u "ts") JNull) (dict_get it (u "thread_ts") JNull).

(** The failure paths other than a failed write, each with the status
    message the handler answers with. *)
Inductive failure_path (data : json) : string -> Prop :=
| wrong_channel ev it :
    event_body data ev it -> reaction_added ev = true ->
    monitored it = false ->
    failure_path data "Channel not monitored"
| unrecognized_reaction ev it :
    event_body data ev it -> reaction_added ev = true ->
    monitored it = true -> recognized ev = false ->
    failure_path data "Reaction not processed"
| fetch_failure ev it text :
    accepted_event data ev it ->
    result_of (resolve it) = inr text -> truthy text = false ->
    failure_path data "Message fetch failed"
| parse_failure ev it text :
    accepted_event data ev it ->
    result_of (resolve it) = inr (JStr text) -> text <> [] ->
    result_of (parse_article_from_message text) = inr None ->
    failure_path data "Article parse failed"
| record_not_found ev it text a page_id :
    accepted_event data ev it ->
    result_of (resolve it) = inr (JStr text) -> text <> [] ->
    result_of (parse_article_from_message text) = inr (Some a) ->
    result_of (find_notion_page_by_url w (url a)) = inr page_id ->
    truthy page_id = false ->
    failure_path data "Notion page not found".

End Gates.

(** ** The documented message format *)

(** The text the parser's docstring expects for an article:
    the title between asterisks, the url between angle brackets, the
    summary. *)
Definition expected_format (a : article) : str :=
  u "*" ++ title a ++ u "*" ++ nl ++ u "<" ++ url a ++ u ">" ++ nl ++
  summary a.

Definition no_linebreak (s : str) : Prop :=
  forall c, In c s -> is_linebreak c = false.

(** ** The Bolt listener

    [bolt_reaction_added(body, logger)] logs to the logger Bolt hands it, not
    to the application's: its trace keeps the two apart. *)

Inductive bolt_level : Type := BOLT_DEBUG | BOLT_INFO.

Inductive bolt_event : Type :=
| BoltLog (lvl : bolt_level) (fmt : string) (args : list logarg)
| App (ev : event).

Definition B (A : Type) : Type := (list bolt_event * (exn + A))%type.

Definition bolt_ret {A} (a : A) : B A := ([], inr a).

Definition bolt_bind {A C} (m : B A) (f : A -> B C) : B C :=
  match m with
  | (t, inl e) => (t, inl e)
  | (t, inr a) => let (t', r) := f a in (t ++ t', r)
  end.

(** Application code run from the listener. *)
Definition app {A} (m : M A) : B A := (map App (trace_of m), result_of m).

Definition bolt_log (lvl : bolt_level) (fmt : string) (args : list logarg)
  : B unit := ([BoltLog lvl fmt args], inr tt).

Notation "x <~ m ;; k" := (bolt_bind m (fun x => k))
  (at level 61, m at next level, right associativity).
Notation "m ~;; k" := (bolt_bind m (fun _ => k))
  (at level 61, right associativity).

(** The events of the application inside a listener's trace. *)
Definition app_events (t : list bolt_event) : list event :=
  flat_map (fun be => match be with App ev => [ev] | BoltLog _ _ _ => [] end) t.

Definition bolt_trace {A} (m : B A) : list bolt_event := fst m.
Definition bolt_result {A} (m : B A) : exn + A := snd m.

(** The remote calls of a listener's run. *)
Definition bolt_calls {A} (m : B A) : list event :=
  remote_calls (app_events (bolt_trace m)).

(** The names the primary endpoint accepts and the listener does not. *)
Definition synonym_reactions : list json :=
  map (fun s => JStr (u s)) ["+1"; "o"; "-1"; "x"]%string.

Definition bolt_reactions : list json :=
  map (fun s => JStr (u s)) ["thumbsup"; "thumbsdown"]%string.

Section Bolt.

Variable SLACK_CHANNEL : str.
Variable w : world.

Definition bolt_reaction_added (body : json) : B unit :=
  bolt_log BOLT_DEBUG "Bolt event received: %s" [V body] ~;;
  event <~ app (py_get body (u "event") (JObj []));;
  item <~ app (py_get event (u "item") (JObj []));;
  channel <~ app (py_get item (u "channel") JNull);;
  bolt_log BOLT_DEBUG "Bolt event channel: %s" [V channel] ~;;
  bolt_log BOLT_DEBUG "SLACK_CHANNEL: %s" [V (JStr SLACK_CHANNEL)] ~;;
  if negb (py_eq channel (JStr SLACK_CHANNEL)) then
    bolt_log BOLT_INFO "Channel not monitored: %s" [V channel] ~;;
    bolt_ret tt
  else
    reaction <~ app (py_get event (u "reaction") JNull);;
    bolt_log BOLT_DEBUG "Bolt event reaction: %s" [V reaction] ~;;
    if negb (py_in reaction bolt_reactions) then
      bolt_log BOLT_INFO "Reaction not processed: %s" [V reaction] ~;;
      bolt_ret tt
    else
      let score := if py_eq reaction (JStr (u "thumbsup")) then 1%Z else 0%Z in
      item <~ app (py_get event (u "item") (JObj []));;
      ts <~ app (py_get item (u "ts") JNull);;
      thread_ts <~ app (py_get item (u "thread_ts") JNull);;
      message_text <~ app (fetch_slack_message w channel ts thread_ts);;
      if negb (truthy message_text) then
        bolt_log BOLT_INFO "Message fetch failed in bolt event" [] ~;;
        bolt_ret tt
      else
        parsed <~ app (parse_message message_text);;
        match parsed with
        | None =>
            bolt_log BOLT_INFO "Article parse failed in bolt event" [] ~;;
            bolt_ret tt
        | Some article =>
            notion_page_id <~ app (find_notion_page_by_url w (url article));;
            if negb (truthy notion_page_id) then
              bolt_log BOLT_INFO "Notion page not found in bolt event" [] ~;;
              bolt_ret tt
            else
              update_resp <~ app (update_notion_score w notion_page_id score);;
              bolt_log BOLT_INFO "Notion updated in bolt event: %s"
                [V update_resp] ~;;
              bolt_ret tt
        end.

End Bolt.

(** A world where the message is the example text, its page is found and
    the update succeeds. *)
Definition happy_world : world :=
  mkWorld (slack_replies faulty_world) (notion_query faulty_world)
          (fun _ score => inr (JObj [(u "my_score", JInt score)])).

(** A world whose reply is ok but holds a null message list. *)
Definition null_messages_world : world :=
  mkWorld (fun _ _ => inr (JObj [(u "ok", JBool true); (u "messages", JNull)]))
          (fun _ => inr (JObj []))
          (fun _ _ => inr (JObj [])).

(** A world whose chat service raises, and one whose database query raises. *)
Definition slack_down_world : world :=
  mkWorld (fun _ _ => inl (RemoteError (u "timeout")))
          (notion_query faulty_world) (notion_update faulty_world).

Definition query_down_world : world :=
  mkWorld (slack_replies faulty_world)
          (fun _ => inl (RemoteError (u "timeout")))
          (notion_update faulty_world).

(** A world whose message text is a number. *)
Definition numeric_text_world : world :=
  mkWorld (fun _ _ =>
             inr (JObj [(u "ok", JBool true);
                        (u "messages",
                         JArr [JObj [(u "ts", JStr (u "1"));
                                     (u "text", JInt 7)]])]))
          (notion_query faulty_world) (notion_update faulty_world).

(** The event and the item of [reaction_body]. *)
Definition reaction_event (reaction channel : string) : dict :=
  [(u "type", JStr (u "reaction_added")); (u "reaction", JStr (u reaction));
   (u "item", JObj [(u "channel", JStr (u channel)); (u "ts", JStr (u "1"))])].

Definition reaction_item (channel : string) : dict :=
  [(u "channel", JStr (u channel)); (u "ts", JStr (u "1"))].

(** * Properties *)

(** ** Strings and values *)

Arguments u : simpl never.

Lemma str_eqb_eq (a b : str) : str_eqb a b = true <-> a = b.
Proof.
  unfold str_eqb. destruct (list_eq_dec N.eq_dec a b); split; congruence.
Qed.

Lemma str_eqb_refl (a : str) : str_eqb a a = true.
Proof. now apply str_eqb_eq. Qed.

Lemma str_eqb_neq (a b : str) : str_eqb a b = false <-> a <> b.
Proof.
  unfold str_eqb. destruct (list_eq_dec N.eq_dec a b); split; congruence.
Qed.

(** Only a string equals a string. *)
Lemma py_eq_str (v : json) (s : str) : py_eq v (JStr s) = true <-> v = JStr s.
Proof.
  destruct v; simpl; split; try discriminate.
  - intros H. apply str_eqb_eq in H. now subst.
  - intros H. injection H as ->. apply str_eqb_refl.
Qed.

Lemma py_in_strs (v : json) (l : list string) :
  py_in v (map (fun s => JStr (u s)) l) = true <->
  In v (map (fun s => JStr (u s)) l).
Proof.
  unfold py_in. rewrite existsb_exists. split.
  - intros (x & Hx & He). apply in_map_iff in Hx as (s & <- & Hs).
    apply py_eq_str in He. subst. apply in_map_iff. now exists s.
  - intros H. exists v. split; [exact H|].
    apply in_map_iff in H as (s & <- & _). now apply py_eq_str.
Qed.

(** ** The monad *)

Lemma bind_ret {A B} (a : A) (f : A -> M B) : bind (ret a) f = f a.
Proof. unfold bind, ret. now destruct (f a). Qed.

Lemma bind_raise {A B} (e : exn) (f : A -> M B) : bind (raise e) f = raise e.
Proof. reflexivity. Qed.

Lemma trace_of_bind {A B} (m : M A) (f : A -> M B) :
  trace_of (bind m f) =
  trace_of m ++ match result_of m with
                | inr a => trace_of (f a)
                | inl _ => []
                end.
Proof.
  destruct m as [t [e|a]]; simpl.
  - now rewrite app_nil_r.
  - now destruct (f a).
Qed.

Lemma result_of_bind {A B} (m : M A) (f : A -> M B) :
  result_of (bind m f) =
  match result_of m with
  | inr a => result_of (f a)
  | inl e => inl e
  end.
Proof.
  destruct m as [t [e|a]]; simpl; [reflexivity|]. now destruct (f a).
Qed.

Lemma bind_emit {B} (ev : event) (f : unit -> M B) :
  bind (emit ev) f = (ev :: trace_of (f tt), result_of (f tt)).
Proof. unfold bind, emit. now destruct (f tt). Qed.

Lemma remote_calls_app (t1 t2 : list event) :
  remote_calls (t1 ++ t2) = remote_calls t1 ++ remote_calls t2.
Proof. apply filter_app. Qed.

Lemma run_eta {A} (m : M A) : m = (trace_of m, result_of m).
Proof. now destruct m. Qed.

Lemma trace_of_pair {A} (t : list event) (r : exn + A) : trace_of (t, r) = t.
Proof. reflexivity. Qed.

Lemma result_of_pair {A} (t : list event) (r : exn + A) : result_of (t, r) = r.
Proof. reflexivity. Qed.

Lemma trace_of_ret {A} (a : A) : trace_of (ret a) = [].
Proof. reflexivity. Qed.

Lemma result_of_ret {A} (a : A) : result_of (ret a) = inr a.
Proof. reflexivity. Qed.

Lemma trace_of_raise {A} (e : exn) : trace_of (@raise A e) = [].
Proof. reflexivity. Qed.

Lemma result_of_raise {A} (e : exn) : result_of (@raise A e) = inl e.
Proof. reflexivity. Qed.

Lemma lift_inr {A} (a : A) : lift (inr a) = ret a.
Proof. reflexivity. Qed.

Lemma lift_inl {A} (e : exn) : @lift A (inl e) = raise e.
Proof. reflexivity. Qed.

Lemma remote_calls_log lvl fmt args (t : list event) :
  remote_calls (Log lvl fmt args :: t) = remote_calls t.
Proof. reflexivity. Qed.

Lemma bind_pair_inr {A B} (t : list event) (a : A) (f : A -> M B) :
  bind (t, inr a) f = (t ++ trace_of (f a), result_of (f a)).
Proof. unfold bind. now destruct (f a). Qed.

Lemma bind_pair_inl {A B} (t : list event) (e : exn) (f : A -> M B) :
  bind (t, inl e) f = (t, inl e).
Proof. reflexivity. Qed.

Lemma in_remote_calls (ev : event) (t : list event) :
  is_remote_call ev = true -> In ev t -> In ev (remote_calls t).
Proof. intros H Hin. apply filter_In. now split. Qed.

(** A remote call found in the trace of [bind m f] that [m] did not issue
    was issued by [f] at the value [m] returned. *)
Lemma in_bind_inv {A B} (m : M A) (f : A -> M B) (ev : event) :
  is_remote_call ev = true ->
  ~ In ev (remote_calls (trace_of m)) ->
  In ev (trace_of (bind m f)) ->
  exists a, result_of m = inr a /\ In ev (trace_of (f a)) /\
            trace_of (bind m f) = trace_of m ++ trace_of (f a) /\
            result_of (bind m f) = result_of (f a).
Proof.
  intros Hev Hno. rewrite trace_of_bind, result_of_bind.
  intros Hin. apply in_app_or in Hin as [Hin|Hin].
  - exfalso. apply Hno. now apply in_remote_calls.
  - destruct (result_of m) as [e|a]; [destruct Hin|]. now exists a.
Qed.

Lemma str_encodable_u (s : string) : str_encodable (u s) = true.
Proof.
  unfold u, str_encodable. induction s as [|a s IH]; [reflexivity|].
  cbn [list_ascii_of_string map forallb]. rewrite IH, andb_true_r.
  unfold is_surrogate. pose proof (N_ascii_bounded a) as Ha.
  destruct (N.leb_spec 55296 (N_of_ascii a)) as [Hle|_]; [lia | reflexivity].
Qed.

Lemma render_message (msg : string) : render_error (message_content msg) = None.
Proof.
  unfold render_error, message_content.
  cbn [has_nonfinite utf8_encodable orb].
  now rewrite !str_encodable_u.
Qed.

(** A status response is always built. *)
Lemma new_response_message (msg : string) :
  new_JSONResponse (message_content msg) 200 = ret (message_response msg).
Proof. unfold new_JSONResponse. now rewrite render_message. Qed.

(** Building a response leaves no trace. *)
Lemma trace_of_new_response (content : json) (status : Z) :
  trace_of (new_JSONResponse content status) = [].
Proof. unfold new_JSONResponse. now destruct (render_error content). Qed.

Create Rewrite HintDb relay.
#[local] Hint Rewrite @bind_ret @bind_raise @bind_emit @lift_inr @lift_inl
  @trace_of_pair @result_of_pair @trace_of_ret @result_of_ret
  @trace_of_raise @result_of_raise remote_calls_log new_response_message
  trace_of_new_response : relay.

(** One step of symbolic execution of handler code. *)
Ltac run :=
  repeat (unfold logger_debug, logger_error;
          autorewrite with relay;
          cbn [py_get py_contains py_getitem py_iter py_first negb]).

(** ** The article parser *)

Lemma parse_few (text : str) :
  (List.length (splitlines text) < 2)%nat ->
  parse_article_from_message text =
  ([Log DEBUG "Insufficient lines in message: %s" [V (JStr text)]], inr None).
Proof.
  intros H. unfold parse_article_from_message.
  apply Nat.ltb_lt in H. rewrite H. reflexivity.
Qed.

Lemma parse_enough (text : str) :
  (2 <= List.length (splitlines text))%nat ->
  result_of (parse_article_from_message text) =
  inr (Some (mkArticle (strip_chars (u "*") (strip (line 0 text)))
                       (unbracket (strip (line 1 text)))
                       (join nl (skipn 2 (splitlines text))))).
Proof.
  intros H. unfold parse_article_from_message, line, unbracket.
  destruct (Nat.ltb_spec (List.length (splitlines text)) 2) as [Hlt|_]; [lia|].
  destruct (Nat.ltb_spec 2 (List.length (splitlines text))) as [_|Hle];
    [reflexivity|].
  rewrite skipn_all2 by lia. reflexivity.
Qed.

Lemma parse_some_inv (text : str) (a : article) :
  result_of (parse_article_from_message text) = inr (Some a) ->
  (2 <= List.length (splitlines text))%nat.
Proof.
  intros H.
  destruct (Nat.ltb_spec (List.length (splitlines text)) 2) as [Hlt|Hge];
    [|exact Hge].
  rewrite (parse_few text Hlt) in H. discriminate.
Qed.

Lemma unbracket_empty (s : str) :
  unbracket s = [] <-> s = [] \/ s = [60; 62]%N.
Proof.
  destruct s as [|c s]; [simpl; tauto|].
  unfold unbracket.
  destruct (startswith (c :: s) 60%N && endswith (c :: s) 62%N) eqn:Hc.
  - apply andb_true_iff in Hc as [H1 H2]. simpl in H1.
    apply N.eqb_eq in H1. subst c. unfold slice_1_m1. simpl tl.
    destruct s as [|d [|d' s]].
    + vm_compute in H2. discriminate.
    + unfold endswith in H2. simpl in H2. apply N.eqb_eq in H2. subst d.
      simpl. split; [now right | reflexivity].
    + split; [simpl; discriminate | intros [H|H]; discriminate].
  - split; [discriminate|]. intros [H|H]; [discriminate|].
    rewrite H in Hc. vm_compute in Hc. discriminate.
Qed.

(** C6. A text of fewer than two lines (the empty text included) makes the
    parser return the null result: it logs the text and returns [None]
    without raising. *)
Theorem parse_fewer_than_two_lines (text : str) :
  (List.length (splitlines text) < 2)%nat ->
  result_of (parse_article_from_message text) = inr None /\
  trace_of (parse_article_from_message text) =
  [Log DEBUG "Insufficient lines in message: %s" [V (JStr text)]].
Proof.
  intros H. rewrite (parse_few text H). split; reflexivity.
Qed.

Lemma parse_fewer_than_two_lines_witness :
  ((List.length (splitlines []) < 2)%nat /\
   result_of (parse_article_from_message []) = inr None) /\
  ((List.length (splitlines (u "*Title only*")) < 2)%nat /\
   result_of (parse_article_from_message (u "*Title only*")) = inr None).
Proof.
  split; (split; [vm_compute; lia|]).
  - apply (parse_fewer_than_two_lines []). vm_compute; lia.
  - apply (parse_fewer_than_two_lines (u "*Title only*")). vm_compute; lia.
Defined.

(** C2, as the code has it. For a text of at least two lines the parser
    returns an article whose title is line 0 stripped of surrounding
    whitespace and then of every leading and trailing asterisk, whose url is
    line 1 stripped of surrounding whitespace and then of its angle brackets
    when it has both, and whose summary is lines 2 onward joined with
    newlines (empty when there are none). *)
Theorem parse_article_contract (text : str) :
  (2 <= List.length (splitlines text))%nat ->
  result_of (parse_article_from_message text) =
  inr (Some (mkArticle (strip_chars (u "*") (strip (line 0 text)))
                       (unbracket (strip (line 1 text)))
                       (join nl (skipn 2 (splitlines text))))) /\
  (List.length (splitlines text) = 2%nat ->
   forall a, result_of (parse_article_from_message text) = inr (Some a) ->
             summary a = []).
Proof.
  intros H. split; [now apply parse_enough|].
  intros H2 a Ha. rewrite (parse_enough text H) in Ha.
  injection Ha as <-. cbn [summary].
  destruct (splitlines text) as [|x [|y [|z l]]]; simpl in *;
    try discriminate; reflexivity.
Qed.

(** The example of the specification, through the contract. *)
Lemma parse_article_contract_witness :
  (2 <= List.length (splitlines example_text))%nat /\
  result_of (parse_article_from_message example_text) =
  inr (Some example_article).
Proof.
  assert (H : (2 <= List.length (splitlines example_text))%nat)
    by (vm_compute; lia).
  split; [exact H|].
  rewrite (proj1 (parse_article_contract example_text H)).
  vm_compute. reflexivity.
Defined.

(** C2 as worded fails: whitespace around line 1 is stripped, so the url is
    not line 1 verbatim. *)
Lemma parser_contract_as_worded_fails :
  ~ parser_contract_as_worded
      (u "*T*" ++ nl ++ u " https://example.com/a " ++ nl ++ u "S").
Proof.
  unfold parser_contract_as_worded. intros H.
  assert (Hlen : (2 <= List.length (splitlines
            (u "*T*" ++ nl ++ u " https://example.com/a " ++ nl ++ u "S")))%nat)
    by (vm_compute; lia).
  specialize (H Hlen). vm_compute in H. discriminate H.
Qed.

(** C8, as the code has it. The url of a parsed article is the second line
    stripped of surrounding whitespace and then of its angle brackets when it
    has both; it is empty exactly when that stripped line is empty or is
    the bare pair of brackets. *)
Theorem parsed_url_invariant (text : str) (a : article) :
  result_of (parse_article_from_message text) = inr (Some a) ->
  url a = unbracket (strip (line 1 text)) /\
  (url a = [] <-> strip (line 1 text) = [] \/ strip (line 1 text) = u "<>").
Proof.
  intros H. pose proof (parse_some_inv text H) as Hlen.
  rewrite (parse_enough text Hlen) in H. injection H as <-. cbn [url].
  split; [reflexivity|]. apply unbracket_empty.
Qed.

Lemma parsed_url_invariant_witness :
  result_of (parse_article_from_message example_text) =
    inr (Some example_article) /\
  url example_article = unbracket (strip (line 1 example_text)).
Proof.
  assert (H : result_of (parse_article_from_message example_text) =
              inr (Some example_article)) by (vm_compute; reflexivity).
  split; [exact H|].
  exact (proj1 (parsed_url_invariant example_text H)).
Defined.

(** C8 as worded fails: a second line holding only the brackets gives an
    article with an empty url. *)
Lemma url_invariant_as_worded_fails :
  ~ url_invariant_as_worded (u "*T*" ++ nl ++ u "<>").
Proof.
  unfold url_invariant_as_worded. intros H.
  destruct (H (mkArticle (u "T") [] [])) as [Hne _].
  - vm_compute. reflexivity.
  - apply Hne. reflexivity.
Qed.

(** ** The message resolver *)

Section Resolver.

Variable w : world.

Lemma scan_messages_dicts (ts thread_ts : json) (msgs : list dict) :
  result_of (scan_messages ts thread_ts (map JObj msgs)) =
  inr (match first_match ts msgs with
       | Some m => dict_get m (u "text") JNull
       | None => JNull
       end).
Proof.
  induction msgs as [|m msgs IH]; [reflexivity|].
  cbn [map scan_messages py_get first_match find]. rewrite bind_ret.
  unfold has_ts at 1. destruct (py_eq (dict_get m (u "ts") JNull) ts).
  - rewrite bind_ret. reflexivity.
  - exact IH.
Qed.

Lemma scan_messages_thread_ts (ts t1 t2 : json) (msgs : list json) :
  result_of (scan_messages ts t1 msgs) = result_of (scan_messages ts t2 msgs).
Proof.
  induction msgs as [|m msgs IH]; [reflexivity|].
  cbn [scan_messages]. rewrite !result_of_bind.
  destruct (result_of (py_get m (u "ts") JNull)) as [e|msg_ts]; [reflexivity|].
  destruct (py_eq msg_ts ts); [reflexivity | exact IH].
Qed.

Lemma scan_messages_calls (ts thread_ts : json) (msgs : list json) :
  remote_calls (trace_of (scan_messages ts thread_ts msgs)) = [].
Proof.
  induction msgs as [|m msgs IH]; [reflexivity|].
  cbn [scan_messages]. destruct m; try reflexivity.
  cbn [py_get]. rewrite bind_ret.
  destruct (py_eq _ ts); [reflexivity | exact IH].
Qed.

(** What the resolver returns on a reply that is an object. *)
Lemma fetch_on_object (channel ts thread_ts : json) (o : dict) :
  slack_replies w channel ts = inr (JObj o) ->
  result_of (fetch_slack_message w channel ts thread_ts) =
  if negb (truthy (dict_get o (u "ok") JNull)) then inr JNull
  else match lookup (u "messages") o with
       | None => inr JNull
       | Some messages =>
           result_of (msgs <- py_iter messages;;
                      scan_messages ts thread_ts msgs)
       end.
Proof.
  intros H. unfold fetch_slack_message, logger_debug, logger_error.
  rewrite !bind_emit. cbn [result_of snd]. rewrite H. unfold lift.
  change (@pair (list event) (exn + json) [] (inr (JObj o)))
    with (ret (JObj o)).
  rewrite bind_ret. cbn [py_get]. rewrite bind_ret.
  destruct (negb (truthy (dict_get o (u "ok") JNull))).
  - rewrite bind_ret, bind_emit. reflexivity.
  - cbn [py_contains py_getitem]. rewrite !bind_ret.
    destruct (lookup (u "messages") o) as [messages|]; cbn [negb].
    + rewrite bind_ret. reflexivity.
    + rewrite bind_emit. reflexivity.
Qed.

Lemma fetch_on_replies (channel ts thread_ts : json) (o : dict)
    (msgs : list dict) :
  slack_replies w channel ts = inr (JObj o) ->
  replies_shape o msgs ->
  result_of (fetch_slack_message w channel ts thread_ts) =
  inr (if negb (truthy (dict_get o (u "ok") JNull)) then JNull
       else match lookup (u "messages") o with
            | None => JNull
            | Some _ => match first_match ts msgs with
                        | Some m => dict_get m (u "text") JNull
                        | None => JNull
                        end
            end).
Proof.
  intros H Hs. rewrite (fetch_on_object channel ts thread_ts H).
  destruct (negb (truthy (dict_get o (u "ok") JNull))); [reflexivity|].
  destruct (lookup (u "messages") o) as [messages|] eqn:Hm; [|reflexivity].
  rewrite (Hs messages Hm). cbn [py_iter]. rewrite bind_ret.
  apply scan_messages_dicts.
Qed.

Lemma fetch_calls (channel ts thread_ts : json) :
  remote_calls (trace_of (fetch_slack_message w channel ts thread_ts)) =
  [SlackReplies channel ts].
Proof.
  unfold fetch_slack_message. run.
  cbn [remote_calls filter is_remote_call]. f_equal.
  destruct (slack_replies w channel ts) as [e|data]; run; [reflexivity|].
  destruct data; run; try reflexivity.
  destruct (truthy (dict_get o (u "ok") JNull)); run; [|reflexivity].
  destruct (lookup (u "messages") o) as [messages|]; run; [|reflexivity].
  destruct messages; run; try reflexivity; apply scan_messages_calls.
Qed.

End Resolver.

(** C7, as the code has it. On a reply that is an object whose [messages],
    when present, is a list of objects, the resolver never raises; it returns
    the null result exactly when the reply is not ok, or has no [messages],
    or no message carries the requested timestamp, or the first message that
    does has no text (absent or null); otherwise it returns the text of the
    first message carrying the timestamp. *)
Theorem resolver_null_iff (w : world) (channel ts thread_ts : json)
    (o : dict) (msgs : list dict) :
  slack_replies w channel ts = inr (JObj o) ->
  replies_shape o msgs ->
  exists r,
    result_of (fetch_slack_message w channel ts thread_ts) = inr r /\
    (r = JNull <->
     not_ok o \/ lookup (u "messages") o = None \/
     first_match ts msgs = None \/
     exists m, first_match ts msgs = Some m /\
               dict_get m (u "text") JNull = JNull) /\
    (forall m, ~ not_ok o -> lookup (u "messages") o <> None ->
               first_match ts msgs = Some m ->
               r = dict_get m (u "text") JNull).
Proof.
  intros H Hs. eexists. split.
  - exact (fetch_on_replies w channel ts thread_ts H Hs).
  - unfold not_ok.
    destruct (truthy (dict_get o (u "ok") JNull)); cbn [negb].
    + destruct (lookup (u "messages") o) as [messages|].
      * destruct (first_match ts msgs) as [m|].
        -- split.
           ++ split.
              ** intros Hr. right. right. right. now exists m.
              ** intros [Hc|[Hc|[Hc|(m' & Hm' & Ht)]]]; try discriminate.
                 now injection Hm' as <-.
           ++ intros m' _ _ Hm'. now injection Hm' as <-.
        -- split; [split; [tauto | reflexivity] | discriminate].
      * split; [split; [tauto | reflexivity] | intros m _ Hc; now destruct Hc].
    + split; [split; [tauto | reflexivity] | intros m Hc; now destruct Hc].
Qed.

Lemma resolver_null_iff_witness :
  slack_replies textless_world (JStr (u "C1")) (JStr (u "1")) =
    inr (JObj textless_reply) /\
  replies_shape textless_reply [[(u "ts", JStr (u "1"))]] /\
  result_of (fetch_slack_message textless_world (JStr (u "C1"))
               (JStr (u "1")) JNull) = inr JNull.
Proof.
  assert (Hs : replies_shape textless_reply [[(u "ts", JStr (u "1"))]]).
  { intros m Hm. vm_compute in Hm. injection Hm as <-. reflexivity. }
  split; [reflexivity|]. split; [exact Hs|].
  destruct (resolver_null_iff textless_world (JStr (u "C1")) (JStr (u "1"))
              JNull eq_refl Hs) as (r & Hr & _).
  rewrite Hr. vm_compute in Hr. symmetry. exact Hr.
Defined.

(** C7 as worded fails: the reply is ok, has a message list and a message
    with the requested timestamp, yet the resolver returns the null result,
    the message having no text. *)
Lemma resolver_null_as_worded_fails :
  ~ resolver_null_as_worded
      (result_of (fetch_slack_message textless_world (JStr (u "C1"))
                    (JStr (u "1")) JNull))
      (JStr (u "1")) textless_reply [[(u "ts", JStr (u "1"))]].
Proof.
  unfold resolver_null_as_worded. intros [H _].
  destruct H as [H|[H|H]]; try (vm_compute in H; discriminate H).
  vm_compute. reflexivity.
Qed.

(** C9. The resolver's result and its remote call do not depend on the
    thread timestamp: two calls that differ in it only return the same
    result and issue the same request. *)
Theorem resolver_ignores_thread_ts (w : world) (channel ts t1 t2 : json) :
  result_of (fetch_slack_message w channel ts t1) =
  result_of (fetch_slack_message w channel ts t2) /\
  remote_calls (trace_of (fetch_slack_message w channel ts t1)) =
  remote_calls (trace_of (fetch_slack_message w channel ts t2)) /\
  remote_calls (trace_of (fetch_slack_message w channel ts t1)) =
  [SlackReplies channel ts].
Proof.
  split; [|split; [now rewrite !fetch_calls | apply fetch_calls]].
  unfold fetch_slack_message. run.
  destruct (slack_replies w channel ts) as [e|data]; run; [reflexivity|].
  destruct data; run; try reflexivity.
  destruct (truthy (dict_get o (u "ok") JNull)); run; [|reflexivity].
  destruct (lookup (u "messages") o) as [messages|]; run; [|reflexivity].
  destruct messages; run; try reflexivity; apply scan_messages_thread_ts.
Qed.

(** ** The locator, the writer and the parser inside the handler *)

Section Services.

Variable w : world.

Lemma find_calls (article_url : str) :
  remote_calls (trace_of (find_notion_page_by_url w article_url)) =
  [NotionQuery article_url].
Proof.
  unfold find_notion_page_by_url. run.
  cbn [remote_calls filter is_remote_call]. f_equal.
  destruct (notion_query w article_url) as [e|response]; run; [reflexivity|].
  destruct response; run; try reflexivity.
  destruct (truthy (dict_get o (u "results") (JArr []))); run;
    [|reflexivity].
  destruct (dict_get o (u "results") (JArr [])) as [| | |[|c r]|[|v l]|o'|f];
    run; try reflexivity.
  - destruct v; run; try reflexivity.
    destruct (lookup (u "id") o0); run; reflexivity.
Qed.

Lemma parse_calls (text : str) :
  remote_calls (trace_of (parse_article_from_message text)) = [].
Proof.
  unfold parse_article_from_message.
  destruct (List.length (splitlines text) <? 2)%nat; run; reflexivity.
Qed.

Lemma parse_message_calls (message_text : json) :
  remote_calls (trace_of (parse_message message_text)) = [].
Proof. destruct message_text; try reflexivity. apply parse_calls. Qed.

Lemma update_run_fault (page_id : json) (score : Z) (e : exn) :
  notion_update w page_id score = inl e ->
  update_notion_score w page_id score =
  ([NotionUpdate page_id score;
    Log ERROR "Error updating Notion page %s: %s" [V page_id; E e]], inl e).
Proof. intros H. unfold update_notion_score. rewrite H. run. reflexivity. Qed.

Lemma update_calls (page_id : json) (score : Z) :
  remote_calls (trace_of (update_notion_score w page_id score)) =
  [NotionUpdate page_id score].
Proof.
  unfold update_notion_score. run.
  destruct (notion_update w page_id score); run; reflexivity.
Qed.

End Services.

(** ** The event receiver *)

Section Receiver.

Variable SLACK_CHANNEL : str.
Variable w : world.

Lemma render_challenge (v : json) :
  render_error (JObj [(u "challenge", v)]) =
  if has_nonfinite v then Some ValueError
  else if utf8_encodable v then None else Some UnicodeEncodeError.
Proof.
  unfold render_error. cbn [has_nonfinite utf8_encodable].
  rewrite str_encodable_u, orb_false_r, andb_true_r. reflexivity.
Qed.

(** C4, as the code has it. A body holding a [challenge] key is answered at
    once, whatever else the body holds: the run consists of the first log
    line and the construction of the response. When the value can be
    rendered (no NaN or infinity, no lone surrogate in its strings) the
    answer is the 200 response that echoes it; otherwise the construction
    raises, ValueError for a NaN or an infinity, else UnicodeEncodeError. *)
Theorem challenge_echo (o : dict) (v : json) :
  lookup (u "challenge") o = Some v ->
  trace_of (slack_events SLACK_CHANNEL w (JObj o)) =
    [Log DEBUG "Received Slack event data: %s" [V (JObj o)]] /\
  (has_nonfinite v = false -> utf8_encodable v = true ->
   result_of (slack_events SLACK_CHANNEL w (JObj o)) =
     inr (mkResponse (JObj [(u "challenge", v)]) 200)) /\
  (has_nonfinite v = true ->
   result_of (slack_events SLACK_CHANNEL w (JObj o)) = inl ValueError) /\
  (has_nonfinite v = false -> utf8_encodable v = false ->
   result_of (slack_events SLACK_CHANNEL w (JObj o)) =
     inl UnicodeEncodeError).
Proof.
  intros H. unfold slack_events. run. rewrite H. run.
  unfold new_JSONResponse. rewrite render_challenge.
  destruct (has_nonfinite v); [|destruct (utf8_encodable v)]; run;
    repeat split; intros; try reflexivity; discriminate.
Qed.


(** The log lines of an accepted event up to the resolver's call. *)
Lemma accepted_channel (data : json) (ev it : dict) :
  accepted_event SLACK_CHANNEL data ev it ->
  dict_get it (u "channel") JNull = JStr SLACK_CHANNEL.
Proof. intros (_ & _ & Hmon & _). now apply py_eq_str. Qed.

(** Symbolic execution of the handler up to the resolver's call. *)
Ltac enter Hacc :=
  let Hch := fresh "Hch" in
  pose proof (accepted_channel Hacc) as Hch;
  destruct Hacc as ((?o & -> & ?Hc & ?Hev & ?Hit) & ?Hty & ?Hmon & ?Hrec);
  unfold reaction_added, monitored, recognized, reaction_of in *;
  unfold resolve in *; unfold slack_events; run;
  rewrite Hc; run; rewrite Hev; run; rewrite Hty, Hit; run;
  rewrite Hmon; run; rewrite Hrec; run; cbv zeta; rewrite Hch.

Lemma run_fetch_failure (data : json) (ev it : dict) (text : json) :
  accepted_event SLACK_CHANNEL data ev it ->
  result_of (resolve SLACK_CHANNEL w it) = inr text ->
  truthy text = false ->
  slack_events SLACK_CHANNEL w data =
  ([Log DEBUG "Received Slack event data: %s" [V data];
    Log DEBUG "Processing reaction event from channel: %s"
      [V (JStr SLACK_CHANNEL)];
    Log DEBUG "Reaction received: %s" [V (reaction_of ev)]]
   ++ trace_of (resolve SLACK_CHANNEL w it)
   ++ [Log ERROR "Failed to fetch message for ts: %s"
         [V (dict_get it (u "ts") JNull)]],
   inr (message_response "Message fetch failed")).
Proof.
  intros Hacc Hres Htext. enter Hacc.
  rewrite (run_eta (fetch_slack_message _ _ _ _)), Hres, bind_pair_inr.
  rewrite Htext. run. reflexivity.
Qed.

Lemma failure_path_result (data : json) (msg : string) :
  failure_path SLACK_CHANNEL w data msg ->
  result_of (slack_events SLACK_CHANNEL w data) = inr (message_response msg).
Proof.
  intros [ev it Hb Hty Hmon | ev it Hb Hty Hmon Hrec
         | ev it text Hacc Hres Htext
         | ev it text Hacc Hres Hne Hparse
         | ev it text a page_id Hacc Hres Hne Hparse Hfind Hpage].
  - destruct Hb as (o & -> & Hc & Hev & Hit).
    unfold reaction_added, monitored in *. unfold slack_events. run.
    rewrite Hc. run. rewrite Hev. run. rewrite Hty, Hit. run.
    rewrite Hmon. run. reflexivity.
  - destruct Hb as (o & -> & Hc & Hev & Hit).
    unfold reaction_added, monitored, recognized, reaction_of in *.
    unfold slack_events. run.
    rewrite Hc. run. rewrite Hev. run. rewrite Hty, Hit. run.
    rewrite Hmon. run. rewrite Hrec. run. reflexivity.
  - now rewrite (run_fetch_failure Hacc Hres Htext).
  - enter Hacc.
    rewrite (run_eta (fetch_slack_message _ _ _ _)), Hres, bind_pair_inr.
    destruct text as [|c text]; [contradiction|]. cbn [truthy parse_message].
    run.
    rewrite (run_eta (parse_article_from_message _)), Hparse, bind_pair_inr.
    run. reflexivity.
  - enter Hacc.
    rewrite (run_eta (fetch_slack_message _ _ _ _)), Hres, bind_pair_inr.
    destruct text as [|c text]; [contradiction|]. cbn [truthy parse_message].
    run.
    rewrite (run_eta (parse_article_from_message _)), Hparse, bind_pair_inr.
    run.
    rewrite (run_eta (find_notion_page_by_url _ _)), Hfind, bind_pair_inr.
    rewrite Hpage. run. reflexivity.
Qed.

(** The pipeline an accepted event goes through records an update only at the
    writer's call, with the page the locator found and the reaction's score;
    when that update raises, the handler logs the error and raises it. *)
Lemma update_inv (data : json) (page_id : json) (score : Z) :
  In (NotionUpdate page_id score)
     (trace_of (slack_events SLACK_CHANNEL w data)) ->
  (exists ev it, accepted_event SLACK_CHANNEL data ev it /\
                 score = reaction_score (reaction_of ev)) /\
  (forall e, notion_update w page_id score = inl e ->
     result_of (slack_events SLACK_CHANNEL w data) = inl e /\
     In (Log ERROR "Error updating Notion page %s: %s" [V page_id; E e])
        (trace_of (slack_events SLACK_CHANNEL w data))).
Proof.
  set (upd := NotionUpdate page_id score).
  assert (Hlog : forall lvl fmt args t,
             In upd (Log lvl fmt args :: t) -> In upd t)
    by (intros lvl fmt args t [H|H]; [discriminate H | exact H]).
  unfold slack_events. run. intros Hin. apply Hlog in Hin. revert Hin.
  destruct data as [| | | s | l | o | f]; run; try (intros []; fail).
  - destruct (is_substring (u "challenge") s); run; intros [].
  - destruct (existsb _ l); run; intros [].
  - destruct (lookup (u "challenge") o) eqn:Hc; run; [intros []|].
    destruct (dict_get o (u "event") (JObj [])) as [| | | | |ev|] eqn:Hev;
      run; try (intros []; fail).
    destruct (py_eq (dict_get ev (u "type") JNull)
                (JStr (u "reaction_added"))) eqn:Hty; run;
      [|intros Hin; apply Hlog in Hin; destruct Hin].
    destruct (dict_get ev (u "item") (JObj [])) as [| | | | |it|] eqn:Hit;
      run; try (intros []; fail).
    intros Hin. apply Hlog in Hin. revert Hin.
    destruct (py_eq (dict_get it (u "channel") JNull) (JStr SLACK_CHANNEL))
      eqn:Hmon; run; [|intros Hin; apply Hlog in Hin; destruct Hin].
    intros Hin. apply Hlog in Hin. revert Hin.
    destruct (py_in (dict_get ev (u "reaction") JNull) recognized_reactions)
      eqn:Hrec; run; [|intros Hin; apply Hlog in Hin; destruct Hin].
    cbv zeta.
    assert (Hacc : accepted_event SLACK_CHANNEL (JObj o) ev it).
    { split; [exists o; repeat split; assumption|]. repeat split; assumption. }
    intros Hin.
    apply in_bind_inv in Hin as (text & Hres & Hin & Ht & Hr);
      [|reflexivity|rewrite fetch_calls; intros [H|[]]; discriminate H].
    rewrite Ht, Hr. clear Ht Hr. cbv beta in *. revert Hin.
    destruct (truthy text); run; [|intros Hin; apply Hlog in Hin; destruct Hin].
    intros Hin.
    apply in_bind_inv in Hin as (parsed & Hparse & Hin & Ht & Hr);
      [|reflexivity|rewrite parse_message_calls; intros []].
    rewrite Ht, Hr. clear Ht Hr. cbv beta in *. revert Hin.
    destruct parsed as [a|]; run; [|intros Hin; apply Hlog in Hin; destruct Hin].
    intros Hin.
    apply in_bind_inv in Hin as (pid & Hfind & Hin & Ht & Hr);
      [|reflexivity|rewrite find_calls; intros [H|[]]; discriminate H].
    rewrite Ht, Hr. clear Ht Hr. cbv beta in *. revert Hin.
    destruct (truthy pid); run; [|intros Hin; apply Hlog in Hin; destruct Hin].
    intros Hin.
    assert (Heq : pid = page_id /\
                  reaction_score (dict_get ev (u "reaction") JNull) = score).
    { rewrite trace_of_bind in Hin. apply in_app_or in Hin as [Hin|Hin].
      - apply (in_remote_calls upd) in Hin; [|reflexivity].
        rewrite update_calls in Hin. destruct Hin as [H|[]].
        injection H as -> ->. now split.
      - destruct (result_of (update_notion_score w pid _)); [destruct Hin|].
        revert Hin. run. intros Hin. apply Hlog in Hin. destruct Hin. }
    destruct Heq as [-> Hscore]. split.
    + exists ev, it. split; [exact Hacc | now symmetry].
    + intros e He. rewrite Hscore.
      rewrite (update_run_fault w page_id score He), bind_pair_inl.
      run. split; [reflexivity|].
      do 3 right. rewrite !in_app_iff. do 3 right. right. left. reflexivity.
Qed.

Lemma event_body_unique (data : json) (ev it ev' it' : dict) :
  event_body data ev it -> event_body data ev' it' -> ev = ev' /\ it = it'.
Proof.
  intros (o & -> & _ & Hev & Hit) (o' & Ho & _ & Hev' & Hit').
  injection Ho as <-. rewrite Hev in Hev'. injection Hev' as <-.
  rewrite Hit in Hit'. injection Hit' as <-. now split.
Qed.

(** C1. A reaction the primary endpoint accepts is one of the three positive
    names and scores 1, or one of the three negative names and scores 0,
    never both; and the score the handler writes for an accepted event is
    the score of the event's reaction. *)
Theorem reaction_score_exhaustive (reaction : json) :
  py_in reaction recognized_reactions = true ->
  (In reaction positive_reactions /\ reaction_score reaction = 1%Z \/
   In reaction negative_reactions /\ reaction_score reaction = 0%Z) /\
  ~ (In reaction positive_reactions /\ In reaction negative_reactions) /\
  (forall data ev it page_id score,
      accepted_event SLACK_CHANNEL data ev it ->
      reaction_of ev = reaction ->
      In (NotionUpdate page_id score)
         (trace_of (slack_events SLACK_CHANNEL w data)) ->
      score = reaction_score reaction).
Proof.
  intros H. apply py_in_strs in H. split; [|split].
  - cbn in H.
    destruct H as [<-|[<-|[<-|[<-|[<-|[<-|[]]]]]]];
      (left; split; [cbn; tauto | reflexivity]) ||
      (right; split; [cbn; tauto | reflexivity]).
  - intros [Hp Hn]. cbn in Hp, Hn.
    destruct Hp as [<-|[<-|[<-|[]]]];
      destruct Hn as [Hn|[Hn|[Hn|[]]]]; vm_compute in Hn; discriminate Hn.
  - intros data ev it page_id score Hacc <- Hin.
    destruct (update_inv _ _ _ Hin) as ((ev' & it' & Hacc' & ->) & _).
    destruct (event_body_unique (proj1 Hacc) (proj1 Hacc')) as [<- _].
    reflexivity.
Qed.

(** C3. When the handler reaches the score writer and the remote update
    raises, the error is logged and raised out of the handler; on each of
    the other failure paths (wrong channel, unrecognized reaction, message
    fetch failure, parse failure, record not found) the handler answers
    with status 200 and the path's status message. *)
Theorem write_fault_propagates (data : json) :
  (forall page_id score e,
      In (NotionUpdate page_id score)
         (trace_of (slack_events SLACK_CHANNEL w data)) ->
      notion_update w page_id score = inl e ->
      result_of (slack_events SLACK_CHANNEL w data) = inl e /\
      In (Log ERROR "Error updating Notion page %s: %s" [V page_id; E e])
         (trace_of (slack_events SLACK_CHANNEL w data))) /\
  (forall msg,
      failure_path SLACK_CHANNEL w data msg ->
      exists r, result_of (slack_events SLACK_CHANNEL w data) = inr r /\
                status_code r = 200%Z /\
                content r = JObj [(u "message", JStr (u msg))]).
Proof.
  split.
  - intros page_id score e Hin He.
    exact (proj2 (update_inv _ _ _ Hin) e He).
  - intros msg Hp. exists (message_response msg).
    split; [now apply failure_path_result | split; reflexivity].
Qed.

(** C10. When the reply holds the message but its text is the empty string
    or is absent, the handler answers as for a failed fetch: status 200 with
    the fetch-failed message; besides its own log lines the run consists of
    the resolver's call alone, so the parser, the locator and the writer are
    not invoked. *)
Theorem textless_message_is_fetch_failure (data : json) (ev it : dict)
    (o : dict) (msgs : list dict) (m : dict) :
  accepted_event SLACK_CHANNEL data ev it ->
  slack_replies w (JStr SLACK_CHANNEL) (dict_get it (u "ts") JNull) =
    inr (JObj o) ->
  replies_shape o msgs ->
  truthy (dict_get o (u "ok") JNull) = true ->
  lookup (u "messages") o <> None ->
  first_match (dict_get it (u "ts") JNull) msgs = Some m ->
  lookup (u "text") m = Some (JStr []) \/ lookup (u "text") m = None ->
  result_of (slack_events SLACK_CHANNEL w data) =
    inr (message_response "Message fetch failed") /\
  status_code (message_response "Message fetch failed") = 200%Z /\
  trace_of (slack_events SLACK_CHANNEL w data) =
    [Log DEBUG "Received Slack event data: %s" [V data];
     Log DEBUG "Processing reaction event from channel: %s"
       [V (JStr SLACK_CHANNEL)];
     Log DEBUG "Reaction received: %s" [V (reaction_of ev)]]
    ++ trace_of (resolve SLACK_CHANNEL w it)
    ++ [Log ERROR "Failed to fetch message for ts: %s"
          [V (dict_get it (u "ts") JNull)]] /\
  remote_calls (trace_of (slack_events SLACK_CHANNEL w data)) =
    [SlackReplies (JStr SLACK_CHANNEL) (dict_get it (u "ts") JNull)].
Proof.
  intros Hacc Hrep Hshape Hok Hmsgs Hfirst Htext.
  assert (Hres : exists text,
             result_of (resolve SLACK_CHANNEL w it) = inr text /\
             truthy text = false).
  { unfold resolve.
    rewrite (fetch_on_replies w _ _ (dict_get it (u "thread_ts") JNull)
               Hrep Hshape).
    rewrite Hok, Hfirst. cbn [negb].
    destruct (lookup (u "messages") o); [|contradiction].
    unfold dict_get at 1.
    destruct Htext as [-> | ->]; eexists; split; reflexivity. }
  destruct Hres as (text & Hres & Hfalsy).
  rewrite (run_fetch_failure Hacc Hres Hfalsy).
  repeat split.
  rewrite trace_of_pair, !remote_calls_app. unfold resolve.
  rewrite fetch_calls. reflexivity.
Qed.

End Receiver.

Lemma challenge_echo_witness :
  lookup (u "challenge")
    [(u "challenge", JStr (u "tok"));
     (u "event", JObj [(u "type", JStr (u "reaction_added"))])] =
    Some (JStr (u "tok")) /\
  result_of (slack_events (u "C1") textless_world
    (JObj [(u "challenge", JStr (u "tok"));
           (u "event", JObj [(u "type", JStr (u "reaction_added"))])])) =
  inr (mkResponse (JObj [(u "challenge", JStr (u "tok"))]) 200).
Proof.
  split; [reflexivity|].
  exact (proj1 (proj2 (@challenge_echo (u "C1") textless_world
             [(u "challenge", JStr (u "tok"));
              (u "event", JObj [(u "type", JStr (u "reaction_added"))])]
             (JStr (u "tok")) eq_refl)) eq_refl eq_refl).
Defined.

(** C4 as worded fails: a challenge holding a lone surrogate cannot be
    rendered, and the handler raises instead of echoing it. *)
Lemma challenge_echo_as_worded_fails :
  ~ challenge_echo_as_worded (u "C1") textless_world
      [(u "challenge", JStr [55296%N])] (JStr [55296%N]).
Proof.
  unfold challenge_echo_as_worded. intros H.
  specialize (H eq_refl). vm_compute in H. discriminate H.
Qed.


Lemma reaction_score_exhaustive_witness :
  py_in (JStr (u "x")) recognized_reactions = true /\
  (In (JStr (u "x")) positive_reactions /\
   reaction_score (JStr (u "x")) = 1%Z \/
   In (JStr (u "x")) negative_reactions /\
   reaction_score (JStr (u "x")) = 0%Z).
Proof.
  split; [reflexivity|].
  exact (proj1 (reaction_score_exhaustive (u "C1") faulty_world
                  (JStr (u "x")) eq_refl)).
Defined.

Lemma write_fault_propagates_witness :
  In (NotionUpdate (JStr (u "page")) 1)
     (trace_of (slack_events (u "C1") faulty_world
                  (reaction_body "thumbsup" "C1"))) /\
  notion_update faulty_world (JStr (u "page")) 1 =
    inl (RemoteError (u "boom")) /\
  result_of (slack_events (u "C1") faulty_world
               (reaction_body "thumbsup" "C1")) =
    inl (RemoteError (u "boom")).
Proof.
  assert (Hin : In (NotionUpdate (JStr (u "page")) 1)
     (trace_of (slack_events (u "C1") faulty_world
                  (reaction_body "thumbsup" "C1")))).
  { vm_compute. repeat (first [left; reflexivity | right]). }
  split; [exact Hin|]. split; [reflexivity|].
  exact (proj1 (proj1 (write_fault_propagates (u "C1") faulty_world
                         (reaction_body "thumbsup" "C1"))
                  (JStr (u "page")) 1%Z (RemoteError (u "boom"))
                  Hin eq_refl)).
Defined.

Lemma textless_message_is_fetch_failure_witness :
  accepted_event (u "C1") (reaction_body "thumbsup" "C1")
     [(u "type", JStr (u "reaction_added")); (u "reaction", JStr (u "thumbsup"));
      (u "item", JObj [(u "channel", JStr (u "C1")); (u "ts", JStr (u "1"))])]
     [(u "channel", JStr (u "C1")); (u "ts", JStr (u "1"))] /\
  result_of (slack_events (u "C1") textless_world
               (reaction_body "thumbsup" "C1")) =
    inr (message_response "Message fetch failed").
Proof.
  assert (Hacc : accepted_event (u "C1") (reaction_body "thumbsup" "C1")
     [(u "type", JStr (u "reaction_added"));
      (u "reaction", JStr (u "thumbsup"));
      (u "item", JObj [(u "channel", JStr (u "C1")); (u "ts", JStr (u "1"))])]
     [(u "channel", JStr (u "C1")); (u "ts", JStr (u "1"))]).
  { split; [eexists; repeat split; reflexivity | repeat split; reflexivity]. }
  split; [exact Hacc|].
  assert (Hs : replies_shape textless_reply [[(u "ts", JStr (u "1"))]]).
  { intros m Hm. vm_compute in Hm. injection Hm as <-. reflexivity. }
  refine (proj1 (@textless_message_is_fetch_failure (u "C1") textless_world
                   _ _ _ textless_reply _ [(u "ts", JStr (u "1"))]
                   Hacc eq_refl Hs eq_refl _ eq_refl (or_intror eq_refl))).
  vm_compute. discriminate.
Defined.

(** * Further properties of the code *)

(** ** Lines and stripping *)

Lemma splitlines_from_cons (cur : str) (c : char) (rest : str) :
  splitlines_from cur (c :: rest) =
  if (c =? 13)%N then
    match rest with
    | 10%N :: rest' => rev cur :: splitlines_from [] rest'
    | _ => rev cur :: splitlines_from [] rest
    end
  else if is_linebreak c then rev cur :: splitlines_from [] rest
  else splitlines_from (c :: cur) rest.
Proof. reflexivity. Qed.

Lemma splitlines_from_line (a b cur : str) :
  no_linebreak a ->
  splitlines_from cur (a ++ 10%N :: b) = (rev cur ++ a) :: splitlines b.
Proof.
  revert cur. induction a as [|c a IH]; intros cur Ha.
  - rewrite app_nil_l, splitlines_from_cons, app_nil_r. reflexivity.
  - assert (Hc : is_linebreak c = false) by (apply Ha; now left).
    assert (Hc13 : (c =? 13)%N = false).
    { destruct (N.eqb_spec c 13) as [->|]; [discriminate Hc | reflexivity]. }
    rewrite <- app_comm_cons, splitlines_from_cons, Hc13, Hc.
    rewrite IH by (intros d Hd; apply Ha; now right).
    cbn [rev]. now rewrite <- app_assoc.
Qed.

Lemma splitlines_from_single (s cur : str) :
  no_linebreak s ->
  splitlines_from cur s =
  match rev cur ++ s with [] => [] | l => [l] end.
Proof.
  revert cur. induction s as [|c s IH]; intros cur Hs.
  - cbn [splitlines_from]. rewrite app_nil_r.
    destruct cur as [|d cur]; [reflexivity|].
    destruct (rev (d :: cur)) eqn:Hr; [|reflexivity].
    apply (f_equal (@List.length _)) in Hr. rewrite length_rev in Hr.
    discriminate Hr.
  - assert (Hc : is_linebreak c = false) by (apply Hs; now left).
    assert (Hc13 : (c =? 13)%N = false).
    { destruct (N.eqb_spec c 13) as [->|]; [discriminate Hc | reflexivity]. }
    rewrite splitlines_from_cons, Hc13, Hc.
    rewrite IH by (intros d Hd; apply Hs; now right).
    cbn [rev]. now rewrite <- app_assoc.
Qed.

Lemma splitlines_from_no_linebreak (n : nat) :
  forall s cur, (List.length s <= n)%nat -> no_linebreak cur ->
                Forall no_linebreak (splitlines_from cur s).
Proof.
  assert (Hrev : forall cur, no_linebreak cur -> no_linebreak (rev cur))
    by (intros cur H c Hc; apply H; now apply in_rev).
  assert (Hnil : no_linebreak []) by (intros c []).
  induction n as [|n IH]; intros s cur Hlen Hcur.
  - destruct s; [|cbn in Hlen; lia].
    cbn. destruct cur; constructor; [now apply Hrev | constructor].
  - destruct s as [|c s].
    + cbn. destruct cur; constructor; [now apply Hrev | constructor].
    + cbn [List.length] in Hlen. rewrite splitlines_from_cons.
      destruct (N.eqb_spec c 13) as [->|Hc13].
      * destruct s as [|d s].
        -- constructor; [now apply Hrev | apply IH; [cbn; lia | exact Hnil]].
        -- assert (Hrest : Forall no_linebreak (splitlines_from [] (d :: s)))
             by (apply IH; [cbn in *; lia | exact Hnil]).
           assert (Hrest' : Forall no_linebreak (splitlines_from [] s))
             by (apply IH; [cbn in *; lia | exact Hnil]).
           destruct d as [|p]; [constructor; [now apply Hrev | exact Hrest]|].
           do 4 (destruct p as [p|p|];
                 try (constructor; [now apply Hrev | exact Hrest])).
           constructor; [now apply Hrev | exact Hrest'].
      * destruct (is_linebreak c) eqn:Hc.
        -- constructor; [now apply Hrev | apply IH; [lia | exact Hnil]].
        -- apply IH; [lia|]. intros d [<-|Hd]; [exact Hc | now apply Hcur].
Qed.

Lemma splitlines_no_linebreak (s : str) : Forall no_linebreak (splitlines s).
Proof.
  apply (splitlines_from_no_linebreak (n := List.length s)); [lia|].
  intros c [].
Qed.

Lemma dropwhile_suffix (p : char -> bool) (s : str) :
  exists pre, s = pre ++ dropwhile p s.
Proof.
  induction s as [|c s (pre & IH)]; [now exists []|].
  cbn. destruct (p c); [|now exists []].
  exists (c :: pre). cbn. now f_equal.
Qed.

Lemma dropwhile_head (p : char -> bool) (s : str) :
  match dropwhile p s with [] => True | c :: _ => p c = false end.
Proof.
  induction s as [|c s IH]; [exact I|].
  cbn. destruct (p c) eqn:Hc; [exact IH | exact Hc].
Qed.

Lemma dropwhile_id (p : char -> bool) (s : str) :
  match s with [] => True | c :: _ => p c = false end -> dropwhile p s = s.
Proof. destruct s as [|c s]; [reflexivity|]. cbn. now intros ->. Qed.

Lemma strip_by_id (p : char -> bool) (s : str) :
  match s with [] => True | c :: _ => p c = false end ->
  match rev s with [] => True | c :: _ => p c = false end ->
  strip_by p s = s.
Proof.
  intros H1 H2. unfold strip_by.
  rewrite (dropwhile_id p s H1), (dropwhile_id p (rev s) H2).
  apply rev_involutive.
Qed.

Lemma strip_by_in (p : char -> bool) (s : str) (c : char) :
  In c (strip_by p s) -> In c s.
Proof.
  unfold strip_by. intros H. apply in_rev in H.
  destruct (dropwhile_suffix p (rev (dropwhile p s))) as (pre & Hpre).
  assert (H' : In c (rev (dropwhile p s)))
    by (rewrite Hpre; apply in_or_app; now right).
  apply in_rev in H'.
  destruct (dropwhile_suffix p s) as (pre' & Hpre').
  rewrite Hpre'. apply in_or_app. now right.
Qed.

(** A stripped string neither starts nor ends with a stripped character. *)
Lemma strip_by_ends (p : char -> bool) (s : str) :
  match strip_by p s with [] => True | c :: _ => p c = false end /\
  match rev (strip_by p s) with [] => True | c :: _ => p c = false end.
Proof.
  unfold strip_by. split.
  - destruct (dropwhile_suffix p (rev (dropwhile p s))) as (pre & Hpre).
    pose proof (dropwhile_head p s) as Hh.
    apply (f_equal (@rev _)) in Hpre.
    rewrite rev_involutive, rev_app_distr in Hpre.
    destruct (rev (dropwhile p (rev (dropwhile p s)))) as [|c l];
      [exact I|].
    rewrite Hpre in Hh. exact Hh.
  - rewrite rev_involutive. apply dropwhile_head.
Qed.

(** ** The parser on the documented format *)

Lemma dropwhile_cons (p : char -> bool) (c : char) (s : str) :
  dropwhile p (c :: s) = if p c then dropwhile p s else c :: s.
Proof. reflexivity. Qed.

Lemma strip_asterisks (t : str) :
  startswith t 42%N = false -> endswith t 42%N = false ->
  strip_chars [42%N] (42%N :: t ++ [42%N]) = t.
Proof.
  intros Hs He. unfold strip_chars, strip_by.
  remember (fun c : char => existsb (N.eqb c) [42%N]) as p eqn:Hpdef.
  assert (Hp : forall c, p c = (c =? 42)%N)
    by (intros c; rewrite Hpdef; cbn; apply orb_false_r).
  clear Hpdef.
  assert (Hstar : p 42%N = true) by now rewrite Hp.
  rewrite dropwhile_cons, Hstar.
  destruct t as [|c t].
  - rewrite app_nil_l, dropwhile_cons, Hstar. reflexivity.
  - rewrite <- app_comm_cons, dropwhile_cons, Hp.
    cbn [startswith] in Hs. rewrite Hs.
    rewrite app_comm_cons, rev_unit, dropwhile_cons, Hstar.
    rewrite dropwhile_id; [apply rev_involutive|].
    assert (Hhead : forall l : str,
               startswith l 42%N = false ->
               match l with [] => True | d :: _ => p d = false end)
      by (intros [|d l] H; [exact I | rewrite Hp; exact H]).
    apply Hhead. exact He.
Qed.

Lemma strip_wrapped (a b : char) (t : str) :
  is_space a = false -> is_space b = false ->
  strip (a :: t ++ [b]) = a :: t ++ [b].
Proof.
  intros Ha Hb. apply strip_by_id; [exact Ha|].
  rewrite app_comm_cons, rev_unit. exact Hb.
Qed.

Lemma unbracket_wrapped (t : str) : unbracket (60%N :: t ++ [62%N]) = t.
Proof.
  unfold unbracket, endswith, slice_1_m1.
  rewrite app_comm_cons, rev_unit. cbn [startswith tl N.eqb Pos.eqb andb].
  apply removelast_last.
Qed.

Lemma no_linebreak_wrapped (a b : char) (t : str) :
  is_linebreak a = false -> is_linebreak b = false -> no_linebreak t ->
  no_linebreak (a :: t ++ [b]).
Proof.
  intros Ha Hb Ht c [<-|Hc]; [exact Ha|].
  apply in_app_or in Hc as [Hc|[<-|[]]]; [now apply Ht | exact Hb].
Qed.

Lemma splitlines_two_lines (l0 l1 s : str) :
  no_linebreak l0 -> no_linebreak l1 ->
  splitlines (l0 ++ 10%N :: l1 ++ 10%N :: s) = l0 :: l1 :: splitlines s.
Proof.
  intros H0 H1. unfold splitlines.
  rewrite (splitlines_from_line (l1 ++ 10%N :: s) [] H0).
  unfold splitlines. rewrite (splitlines_from_line s [] H1). reflexivity.
Qed.

Lemma expected_format_lines (a : article) :
  expected_format a =
  (42%N :: title a ++ [42%N]) ++
  10%N :: (60%N :: url a ++ [62%N]) ++ 10%N :: summary a.
Proof.
  unfold expected_format, nl.
  change (u "*") with [42%N]. change (u "<") with [60%N].
  change (u ">") with [62%N].
  change ([42%N] ++ title a ++ [42%N] ++ [10%N] ++ [60%N] ++ url a ++
          [62%N] ++ [10%N] ++ summary a)
    with (42%N :: (title a ++ 42%N :: 10%N :: 60%N ::
                   (url a ++ 62%N :: 10%N :: summary a))).
  rewrite <- !app_comm_cons, <- !app_assoc. reflexivity.
Qed.

Lemma splitlines_expected_format (a : article) :
  no_linebreak (title a) -> no_linebreak (url a) ->
  splitlines (expected_format a) =
  (42%N :: title a ++ [42%N]) :: (60%N :: url a ++ [62%N])
    :: splitlines (summary a).
Proof.
  intros Ht Hu. rewrite expected_format_lines.
  apply splitlines_two_lines;
    (apply no_linebreak_wrapped; [reflexivity | reflexivity | assumption]).
Qed.

(** X1. Parsing the format the docstring documents gives the article back:
    for a title and a url without line boundaries, the title neither
    starting nor ending with an asterisk, the parser returns that title and
    url, and the summary with its line boundaries rewritten as newlines; a
    one-line summary comes back unchanged. *)
Theorem parse_expected_format (a : article) :
  no_linebreak (title a) -> no_linebreak (url a) ->
  startswith (title a) 42%N = false -> endswith (title a) 42%N = false ->
  result_of (parse_article_from_message (expected_format a)) =
    inr (Some (mkArticle (title a) (url a)
                 (join nl (splitlines (summary a))))) /\
  (no_linebreak (summary a) ->
   result_of (parse_article_from_message (expected_format a)) = inr (Some a)).
Proof.
  intros Ht Hu Hs He.
  pose proof (splitlines_expected_format a Ht Hu) as Hsplit.
  assert (Hres : result_of (parse_article_from_message (expected_format a)) =
                 inr (Some (mkArticle (title a) (url a)
                              (join nl (splitlines (summary a)))))).
  { rewrite parse_enough by (rewrite Hsplit; cbn [List.length]; lia).
    unfold line. rewrite Hsplit. cbn [nth skipn].
    rewrite !strip_wrapped by reflexivity.
    change (u "*") with [42%N].
    do 2 f_equal. f_equal;
      [apply strip_asterisks; assumption | apply unbracket_wrapped]. }
  split; [exact Hres|].
  intros Hsum. rewrite Hres. unfold splitlines.
  rewrite (splitlines_from_single [] Hsum). cbn [rev app].
  destruct a as [t ur [|c sm]]; reflexivity.
Qed.

Lemma parse_expected_format_witness :
  (no_linebreak (title example_article) /\
   no_linebreak (url example_article)) /\
  result_of (parse_article_from_message (expected_format example_article)) =
  inr (Some example_article).
Proof.
  assert (Hnl : forall s, forallb (fun c => negb (is_linebreak c)) s = true ->
                          no_linebreak s).
  { intros s H c Hc. rewrite forallb_forall in H.
    apply negb_true_iff. now apply H. }
  assert (Ht : no_linebreak (title example_article))
    by (apply Hnl; vm_compute; reflexivity).
  assert (Hu : no_linebreak (url example_article))
    by (apply Hnl; vm_compute; reflexivity).
  split; [now split|].
  rewrite (proj1 (parse_expected_format example_article Ht Hu
                    eq_refl eq_refl)).
  vm_compute. reflexivity.
Defined.

(** X2. The title of a parsed article neither starts nor ends with an
    asterisk, and its url, when the second line is not bracketed, neither
    starts nor ends with whitespace. *)
Theorem parsed_title_has_no_outer_asterisk (text : str) (a : article) :
  result_of (parse_article_from_message text) = inr (Some a) ->
  (startswith (title a) 42%N = false /\ endswith (title a) 42%N = false) /\
  (startswith (strip (line 1 text)) 60%N &&
   endswith (strip (line 1 text)) 62%N = false ->
   match url a with [] => True | c :: _ => is_space c = false end /\
   match rev (url a) with [] => True | c :: _ => is_space c = false end).
Proof.
  intros H. pose proof (parse_some_inv text H) as Hlen.
  rewrite (parse_enough text Hlen) in H. injection H as <-.
  cbn [title url]. split.
  - change (u "*") with [42%N]. unfold strip_chars, endswith.
    set (p := fun c : char => existsb (N.eqb c) [42%N]).
    assert (Hp : forall c, p c = false -> (c =? 42)%N = false).
    { intros c. unfold p. cbn. now rewrite orb_false_r. }
    destruct (strip_by_ends p (strip (line 0 text))) as [H1 H2].
    split.
    + destruct (strip_by p (strip (line 0 text))); [reflexivity|].
      cbn. now apply Hp.
    + destruct (rev (strip_by p (strip (line 0 text)))); [reflexivity|].
      cbn. now apply Hp.
  - intros Hb. unfold unbracket. rewrite Hb.
    apply (strip_by_ends is_space (line 1 text)).
Qed.

Lemma parsed_title_has_no_outer_asterisk_witness :
  result_of (parse_article_from_message example_text) =
    inr (Some example_article) /\
  startswith (title example_article) 42%N = false.
Proof.
  assert (H : result_of (parse_article_from_message example_text) =
              inr (Some example_article)) by (vm_compute; reflexivity).
  split; [exact H|].
  exact (proj1 (proj1 (parsed_title_has_no_outer_asterisk example_text H))).
Defined.

Lemma join_in (ls : list str) (c : char) :
  In c (join nl ls) -> c = 10%N \/ exists l, In l ls /\ In c l.
Proof.
  induction ls as [|l ls IH]; [intros []|].
  destruct ls as [|l' ls].
  - cbn [join]. intros H. right. exists l. split; [now left | exact H].
  - change (join nl (l :: l' :: ls)) with (l ++ nl ++ join nl (l' :: ls)).
    intros H. apply in_app_or in H as [H|H].
    + right. exists l. split; [now left | exact H].
    + apply in_app_or in H as [[<-|[]]|H]; [now left|].
      destruct (IH H) as [->|(l0 & Hl0 & Hc)]; [now left|].
      right. exists l0. split; [now right | exact Hc].
Qed.

(** X3. A parsed title and a parsed url hold no line boundary, and the only
    line boundary a parsed summary holds is the newline: whatever boundaries
    separated the lines of the text, the summary is rejoined with newlines. *)
Theorem parsed_fields_line_boundaries (text : str) (a : article) :
  result_of (parse_article_from_message text) = inr (Some a) ->
  no_linebreak (title a) /\ no_linebreak (url a) /\
  (forall c, In c (summary a) -> is_linebreak c = true -> c = 10%N).
Proof.
  intros H. pose proof (parse_some_inv text H) as Hlen.
  rewrite (parse_enough text Hlen) in H. injection H as <-.
  pose proof (splitlines_no_linebreak text) as Hall.
  rewrite Forall_forall in Hall.
  assert (Hline : forall i, no_linebreak (line i text)).
  { intros i. unfold line.
    destruct (nth_in_or_default i (splitlines text) []) as [Hin | ->];
      [now apply Hall | intros c []]. }
  cbn [title url summary]. split; [|split].
  - intros c Hc. apply strip_by_in, strip_by_in in Hc. exact (Hline _ _ Hc).
  - intros c Hc. unfold unbracket in Hc.
    destruct (startswith _ _ && endswith _ _).
    + unfold slice_1_m1 in Hc.
      assert (Hc' : In c (strip (line 1 text))).
      { destruct (strip (line 1 text)) as [|d l]; [destruct Hc|].
        right. cbn [tl] in Hc.
        destruct l as [|e l] using rev_ind; [destruct Hc|].
        rewrite removelast_last in Hc. apply in_or_app. now left. }
      apply strip_by_in in Hc'. exact (Hline _ _ Hc').
    + apply strip_by_in in Hc. exact (Hline _ _ Hc).
  - intros c Hc Hlb. apply join_in in Hc as [->|(l & Hl & Hc)];
      [reflexivity|].
    assert (Hl' : In l (splitlines text)).
    { clear - Hl. revert Hl. generalize (splitlines text).
      intros ls. destruct ls as [|x [|y ls]]; cbn; tauto. }
    rewrite (Hall l Hl' c Hc) in Hlb. discriminate Hlb.
Qed.

Lemma parsed_fields_line_boundaries_witness :
  result_of (parse_article_from_message example_text) =
    inr (Some example_article) /\
  no_linebreak (url example_article).
Proof.
  assert (H : result_of (parse_article_from_message example_text) =
              inr (Some example_article)) by (vm_compute; reflexivity).
  split; [exact H|].
  exact (proj1 (proj2 (parsed_fields_line_boundaries example_text H))).
Defined.

(** ** The resolver, the locator and the writer on their replies *)

Section Replies.

Variable w : world.

Lemma scan_messages_skip (ts thread_ts : json) (pre : list dict)
    (l : list json) :
  first_match ts pre = None ->
  scan_messages ts thread_ts (map JObj pre ++ l) =
  scan_messages ts thread_ts l.
Proof.
  induction pre as [|m pre IH]; [reflexivity|].
  unfold first_match. cbn [find]. destruct (has_ts ts m) eqn:Hm;
    [discriminate|].
  intros Hpre. cbn [map]. rewrite <- app_comm_cons.
  cbn [scan_messages py_get]. rewrite bind_ret.
  unfold has_ts in Hm. rewrite Hm. now apply IH.
Qed.

Lemma fetch_on_list (channel ts thread_ts : json) (o : dict)
    (l : list json) :
  slack_replies w channel ts = inr (JObj o) ->
  truthy (dict_get o (u "ok") JNull) = true ->
  lookup (u "messages") o = Some (JArr l) ->
  result_of (fetch_slack_message w channel ts thread_ts) =
  result_of (scan_messages ts thread_ts l).
Proof.
  intros H Hok Hm. rewrite (fetch_on_object w channel ts thread_ts H).
  rewrite Hok, Hm. cbn [negb py_iter]. now rewrite bind_ret.
Qed.

(** X4. The resolver stops at the first message carrying the requested
    timestamp: it returns that message's text (null when it has none)
    whatever follows it in the list, entries that are not objects
    included. *)
Theorem resolver_stops_at_first_match (channel ts thread_ts : json)
    (o : dict) (pre : list dict) (m : dict) (rest : list json) :
  slack_replies w channel ts = inr (JObj o) ->
  truthy (dict_get o (u "ok") JNull) = true ->
  lookup (u "messages") o = Some (JArr (map JObj pre ++ JObj m :: rest)) ->
  first_match ts pre = None ->
  has_ts ts m = true ->
  result_of (fetch_slack_message w channel ts thread_ts) =
  inr (dict_get m (u "text") JNull).
Proof.
  intros H Hok Hm Hpre Hts.
  rewrite (fetch_on_list channel ts thread_ts H Hok Hm).
  rewrite (scan_messages_skip ts thread_ts pre _ Hpre).
  cbn [scan_messages py_get]. rewrite bind_ret.
  unfold has_ts in Hts. rewrite Hts. run. reflexivity.
Qed.

(** X5. On a malformed reply the resolver raises instead of returning the
    null result: AttributeError when the reply is not an object,
    TypeError when an ok reply's [messages] is null, a boolean or a number,
    and AttributeError when an entry that is not an object comes before any
    message carrying the timestamp. *)
Theorem resolver_malformed_reply (channel ts thread_ts : json)
    (data : json) :
  slack_replies w channel ts = inr data ->
  ((forall o, data <> JObj o) ->
   result_of (fetch_slack_message w channel ts thread_ts) =
     inl AttributeError) /\
  (forall o msgs,
      data = JObj o ->
      truthy (dict_get o (u "ok") JNull) = true ->
      lookup (u "messages") o = Some msgs ->
      (msgs = JNull \/ (exists b, msgs = JBool b) \/
       (exists n, msgs = JInt n) ->
       result_of (fetch_slack_message w channel ts thread_ts) =
         inl TypeError) /\
      (forall pre bad rest,
          msgs = JArr (map JObj pre ++ bad :: rest) ->
          first_match ts pre = None ->
          (forall d, bad <> JObj d) ->
          result_of (fetch_slack_message w channel ts thread_ts) =
            inl AttributeError)).
Proof.
  intros H. split.
  - intros Hno. unfold fetch_slack_message. run. rewrite H. run.
    destruct data; run; try reflexivity. now destruct (Hno o).
  - intros o msgs -> Hok Hm. split.
    + intros Hbad. rewrite (fetch_on_object w channel ts thread_ts H).
      rewrite Hok, Hm. cbn [negb].
      destruct Hbad as [-> | [(b & ->) | (n & ->)]]; run; reflexivity.
    + intros pre bad rest -> Hpre Hbad.
      rewrite (fetch_on_list channel ts thread_ts H Hok Hm).
      rewrite (scan_messages_skip ts thread_ts pre _ Hpre).
      cbn [scan_messages].
      destruct bad; run; try reflexivity. now destruct (Hbad o0).
Qed.

(** X6. What the locator returns on a query response that is an object:
    the null result when [results] is missing or empty, the [id] of the
    first result when it has one, and KeyError when the first result has
    no [id]; in every case it issues the one query for the url. *)
Theorem locator_first_result (article_url : str) (o : dict) :
  notion_query w article_url = inr (JObj o) ->
  (dict_get o (u "results") (JArr []) = JArr [] ->
   result_of (find_notion_page_by_url w article_url) = inr JNull) /\
  (forall r rest,
      dict_get o (u "results") (JArr []) = JArr (JObj r :: rest) ->
      result_of (find_notion_page_by_url w article_url) =
      match lookup (u "id") r with
      | Some page_id => inr page_id
      | None => inl KeyError
      end) /\
  remote_calls (trace_of (find_notion_page_by_url w article_url)) =
  [NotionQuery article_url].
Proof.
  intros H. split; [|split; [|apply find_calls]].
  - intros Hr. unfold find_notion_page_by_url. run. rewrite H. run.
    rewrite Hr. cbn [truthy]. run. reflexivity.
  - intros r rest Hr. unfold find_notion_page_by_url. run. rewrite H. run.
    rewrite Hr. cbn [truthy]. run.
    destruct (lookup (u "id") r); run; reflexivity.
Qed.

(** X7. The writer hands on the outcome of the remote update unchanged,
    the returned response or the raised error alike; it issues that one
    update, and it logs the error line exactly when the update raised. *)
Theorem writer_is_transparent (page_id : json) (score : Z) :
  result_of (update_notion_score w page_id score) =
    notion_update w page_id score /\
  remote_calls (trace_of (update_notion_score w page_id score)) =
    [NotionUpdate page_id score] /\
  forall e,
    In (Log ERROR "Error updating Notion page %s: %s" [V page_id; E e])
       (trace_of (update_notion_score w page_id score)) <->
    notion_update w page_id score = inl e.
Proof.
  split; [|split; [apply update_calls|]].
  - unfold update_notion_score. run.
    destruct (notion_update w page_id score); run; reflexivity.
  - intros e. unfold update_notion_score. run.
    destruct (notion_update w page_id score) as [e'|r]; run; cbn [In].
    + split.
      * intros [H|[H|[]]]; [discriminate H | now injection H as ->].
      * intros H. injection H as ->. right. now left.
    + split; [|discriminate].
      intros [H|[H|[H|[]]]]; discriminate H.
Qed.

End Replies.

Lemma resolver_stops_at_first_match_witness :
  result_of (fetch_slack_message faulty_world (JStr (u "C1")) (JStr (u "1"))
               JNull) = inr (JStr example_text).
Proof.
  exact (@resolver_stops_at_first_match faulty_world (JStr (u "C1"))
           (JStr (u "1")) JNull _ [] _ [] eq_refl eq_refl eq_refl eq_refl
           eq_refl).
Defined.

Lemma resolver_malformed_reply_witness :
  slack_replies null_messages_world (JStr (u "C1")) (JStr (u "1")) =
    inr (JObj [(u "ok", JBool true); (u "messages", JNull)]) /\
  result_of (fetch_slack_message null_messages_world (JStr (u "C1"))
               (JStr (u "1")) JNull) = inl TypeError.
Proof.
  split; [reflexivity|].
  refine (proj1 (proj2 (@resolver_malformed_reply null_messages_world
                          (JStr (u "C1")) (JStr (u "1")) JNull _ eq_refl)
                   _ JNull eq_refl eq_refl eq_refl) _).
  now left.
Defined.

Lemma locator_first_result_witness :
  notion_query faulty_world (u "https://example.com/a") =
    inr (JObj [(u "results", JArr [JObj [(u "id", JStr (u "page"))]])]) /\
  result_of (find_notion_page_by_url faulty_world (u "https://example.com/a"))
  = inr (JStr (u "page")).
Proof.
  split; [reflexivity|].
  exact (proj1 (proj2 (@locator_first_result faulty_world
                         (u "https://example.com/a") _ eq_refl))
           _ [] eq_refl).
Defined.

(** ** The handler on every body *)

Lemma calls_bind {A B} (m : M A) (f : A -> M B) :
  remote_calls (trace_of (bind m f)) =
  remote_calls (trace_of m) ++
  match result_of m with
  | inr a => remote_calls (trace_of (f a))
  | inl _ => []
  end.
Proof.
  rewrite trace_of_bind, remote_calls_app.
  now destruct (result_of m).
Qed.

Section Pipeline.

Variable SLACK_CHANNEL : str.
Variable w : world.

Lemma new_response_status (content : json) (status : Z) (r : JSONResponse) :
  result_of (new_JSONResponse content status) = inr r ->
  status_code r = status.
Proof.
  unfold new_JSONResponse. destruct (render_error content);
    [discriminate | now intros [= <-]].
Qed.

Ltac shape_leaf ch ts au pid sc n :=
  split;
  [ let r := fresh "r" in let Hr := fresh "Hr" in
    intros r Hr;
    first [ discriminate Hr | injection Hr as <-; reflexivity
          | exact (new_response_status _ _ Hr) ]
  | exists ch, ts, au, pid, sc, n; reflexivity ].

Ltac shape_stop := shape_leaf JNull JNull (@nil char) JNull 0%Z 0%nat.

(** Every response the handler returns has status 200, and its remote calls
    are an initial part of: the replies request, the query, the update. *)
Lemma handler_shape (data : json) :
  (forall r, result_of (slack_events SLACK_CHANNEL w data) = inr r ->
             status_code r = 200%Z) /\
  exists channel ts article_url page_id score n,
    remote_calls (trace_of (slack_events SLACK_CHANNEL w data)) =
    firstn n [SlackReplies channel ts; NotionQuery article_url;
              NotionUpdate page_id score].
Proof.
  unfold slack_events. run.
  destruct data as [| | | s | l | o | f]; run; try shape_stop.
  - destruct (is_substring (u "challenge") s); run; shape_stop.
  - destruct (existsb _ l); run; shape_stop.
  - destruct (lookup (u "challenge") o) eqn:Hc; run; [shape_stop|].
    destruct (dict_get o (u "event") (JObj [])) as [| | | | |ev|] eqn:Hev;
      run; try shape_stop.
    destruct (py_eq (dict_get ev (u "type") JNull)
                (JStr (u "reaction_added"))) eqn:Hty; run; [|shape_stop].
    destruct (dict_get ev (u "item") (JObj [])) as [| | | | |it|] eqn:Hit;
      run; try shape_stop.
    destruct (py_eq (dict_get it (u "channel") JNull) (JStr SLACK_CHANNEL))
      eqn:Hmon; run; [|shape_stop].
    destruct (py_in (dict_get ev (u "reaction") JNull) recognized_reactions)
      eqn:Hrec; run; [|shape_stop].
    cbv zeta.
    set (channel := dict_get it (u "channel") JNull).
    set (ts := dict_get it (u "ts") JNull).
    set (score := reaction_score (dict_get ev (u "reaction") JNull)).
    rewrite result_of_bind, calls_bind, fetch_calls.
    destruct (result_of (fetch_slack_message w channel ts _)) as [e|text];
      [shape_leaf channel ts (@nil char) JNull 0%Z 1%nat|].
    destruct (truthy text); run;
      [|shape_leaf channel ts (@nil char) JNull 0%Z 1%nat].
    rewrite result_of_bind, calls_bind, parse_message_calls.
    destruct (result_of (parse_message text)) as [e|[a|]]; run;
      [shape_leaf channel ts (@nil char) JNull 0%Z 1%nat | |
       shape_leaf channel ts (@nil char) JNull 0%Z 1%nat].
    rewrite result_of_bind, calls_bind, find_calls.
    destruct (result_of (find_notion_page_by_url w (url a))) as [e|pid];
      [shape_leaf channel ts (url a) JNull 0%Z 2%nat|].
    destruct (truthy pid); run;
      [|shape_leaf channel ts (url a) JNull 0%Z 2%nat].
    rewrite result_of_bind, calls_bind, update_calls.
    destruct (result_of (update_notion_score w pid score)) as [e|resp]; run;
      shape_leaf channel ts (url a) pid score 3%nat.
Qed.

Lemma update_result (page_id : json) (score : Z) :
  result_of (update_notion_score w page_id score) =
  notion_update w page_id score.
Proof.
  unfold update_notion_score. run.
  destruct (notion_update w page_id score); run; reflexivity.
Qed.

Lemma fetch_remote_error (channel ts thread_ts : json) (e : exn) :
  slack_replies w channel ts = inl e ->
  result_of (fetch_slack_message w channel ts thread_ts) = inl e.
Proof. intros H. unfold fetch_slack_message. run. rewrite H. now run. Qed.

Lemma find_remote_error (article_url : str) (e : exn) :
  notion_query w article_url = inl e ->
  result_of (find_notion_page_by_url w article_url) = inl e.
Proof. intros H. unfold find_notion_page_by_url. run. rewrite H. now run. Qed.

(** Symbolic execution of the handler up to the resolver's call. *)
Ltac enter_pipeline Hacc :=
  let Hch := fresh "Hch" in
  pose proof (accepted_channel Hacc) as Hch;
  destruct Hacc as ((?o & -> & ?Hc & ?Hev & ?Hit) & ?Hty & ?Hmon & ?Hrec);
  unfold reaction_added, monitored, recognized, reaction_of in *;
  unfold resolve in *; unfold slack_events; run;
  rewrite Hc; run; rewrite Hev; run; rewrite Hty, Hit; run;
  rewrite Hmon; run; rewrite Hrec; run; cbv zeta; rewrite Hch.

Lemma render_success (resp : json) :
  render_error (success_content resp) =
  if has_nonfinite resp then Some ValueError
  else if utf8_encodable resp then None else Some UnicodeEncodeError.
Proof.
  unfold render_error, success_content. cbn [has_nonfinite utf8_encodable].
  rewrite !str_encodable_u. cbn [orb andb].
  rewrite orb_false_r, andb_true_r. reflexivity.
Qed.

(** X8. The whole pipeline: for an accepted event whose message resolves to
    a text that parses to an article, whose page the locator finds, and
    whose update succeeds, the handler issues exactly the replies request,
    the query for the article's url and the update of the found page with
    the reaction's score, in that order. It then answers 200 with the
    update's response when that response can be rendered (no NaN or
    infinity, no lone surrogate); otherwise building the answer raises,
    after the update. *)
Theorem handler_success (data : json) (ev it : dict) (text : str)
    (a : article) (page_id resp : json) :
  accepted_event SLACK_CHANNEL data ev it ->
  result_of (resolve SLACK_CHANNEL w it) = inr (JStr text) ->
  text <> [] ->
  result_of (parse_article_from_message text) = inr (Some a) ->
  result_of (find_notion_page_by_url w (url a)) = inr page_id ->
  truthy page_id = true ->
  notion_update w page_id (reaction_score (reaction_of ev)) = inr resp ->
  remote_calls (trace_of (slack_events SLACK_CHANNEL w data)) =
    [SlackReplies (JStr SLACK_CHANNEL) (dict_get it (u "ts") JNull);
     NotionQuery (url a);
     NotionUpdate page_id (reaction_score (reaction_of ev))] /\
  (has_nonfinite resp = false -> utf8_encodable resp = true ->
   result_of (slack_events SLACK_CHANNEL w data) =
     inr (mkResponse (JObj [(u "message", JStr (u "Notion updated"));
                            (u "response", resp)]) 200)) /\
  (has_nonfinite resp = true ->
   result_of (slack_events SLACK_CHANNEL w data) = inl ValueError) /\
  (has_nonfinite resp = false -> utf8_encodable resp = false ->
   result_of (slack_events SLACK_CHANNEL w data) = inl UnicodeEncodeError).
Proof.
  intros Hacc Hres Hne Hparse Hfind Hpage Hupd. enter_pipeline Hacc.
  rewrite result_of_bind, calls_bind, fetch_calls, Hres.
  destruct text as [|c text]; [contradiction|].
  cbn [truthy negb parse_message].
  rewrite result_of_bind, calls_bind, parse_calls, Hparse.
  rewrite result_of_bind, calls_bind, find_calls, Hfind, Hpage.
  cbn [negb].
  rewrite result_of_bind, calls_bind, update_calls, update_result, Hupd.
  run. split; [reflexivity|].
  change (JObj [(u "message", JStr (u "Notion updated"));
                (u "response", resp)]) with (success_content resp).
  unfold new_JSONResponse. rewrite render_success.
  destruct (has_nonfinite resp); [|destruct (utf8_encodable resp)]; run;
    repeat split; intros; try reflexivity; discriminate.
Qed.

(** X9. Whatever the body and the remote services, the remote calls of one
    run are an initial part of the sequence: replies request, database
    query, page update. A run never updates twice, never updates without
    having queried, and never queries without having fetched. *)
Theorem handler_calls_in_order (data : json) :
  exists channel ts article_url page_id score n,
    remote_calls (trace_of (slack_events SLACK_CHANNEL w data)) =
    firstn n [SlackReplies channel ts; NotionQuery article_url;
              NotionUpdate page_id score].
Proof. exact (proj2 (handler_shape data)). Qed.

(** X10. Whatever the body and the remote services, a response the handler
    returns has status 200: the only other outcome of a run is a raised
    exception. *)
Theorem handler_answers_200 (data : json) (r : JSONResponse) :
  result_of (slack_events SLACK_CHANNEL w data) = inr r ->
  status_code r = 200%Z.
Proof. exact (proj1 (handler_shape data) r). Qed.

(** X11. An object body without [challenge] whose event (the empty object
    when [event] is missing) is not of type [reaction_added] is answered
    with "Event type not handled": the run is two log lines, and neither
    the channel nor the reaction is looked at. *)
Theorem unhandled_event_type (o ev : dict) :
  lookup (u "challenge") o = None ->
  dict_get o (u "event") (JObj []) = JObj ev ->
  reaction_added ev = false ->
  slack_events SLACK_CHANNEL w (JObj o) =
  ([Log DEBUG "Received Slack event data: %s" [V (JObj o)];
    Log DEBUG "Unhandled event type." []],
   inr (message_response "Event type not handled")).
Proof.
  intros Hc Hev Hty. unfold reaction_added in Hty.
  unfold slack_events. run. rewrite Hc. run. rewrite Hev. run.
  rewrite Hty. run. reflexivity.
Qed.

(** X12. A body that is not an object makes the handler raise without any
    remote call: TypeError for null, a boolean or a number and for a
    string or a list that holds "challenge", AttributeError for any other
    string or list. *)
Theorem malformed_body_raises (data : json) :
  (forall o, data <> JObj o) ->
  result_of (slack_events SLACK_CHANNEL w data) =
    inl (match data with
         | JStr s =>
             if is_substring (u "challenge") s then TypeError
             else AttributeError
         | JArr l =>
             if existsb (fun e => py_eq e (JStr (u "challenge"))) l
             then TypeError else AttributeError
         | _ => TypeError
         end) /\
  remote_calls (trace_of (slack_events SLACK_CHANNEL w data)) = [].
Proof.
  intros Hno. unfold slack_events. run.
  destruct data as [| | | s | l | o | f]; run; try (split; reflexivity).
  - destruct (is_substring (u "challenge") s); run; split; reflexivity.
  - destruct (existsb _ l); run; split; reflexivity.
  - now destruct (Hno o).
Qed.

(** X13. When the chat service raises for an accepted event, the handler
    raises that error: it is not answered as a failed fetch, and the
    database is not called. *)
Theorem chat_error_propagates (data : json) (ev it : dict) (e : exn) :
  accepted_event SLACK_CHANNEL data ev it ->
  slack_replies w (JStr SLACK_CHANNEL) (dict_get it (u "ts") JNull) =
    inl e ->
  result_of (slack_events SLACK_CHANNEL w data) = inl e /\
  remote_calls (trace_of (slack_events SLACK_CHANNEL w data)) =
    [SlackReplies (JStr SLACK_CHANNEL) (dict_get it (u "ts") JNull)].
Proof.
  intros Hacc Herr. enter_pipeline Hacc.
  rewrite result_of_bind, calls_bind, fetch_calls.
  rewrite (fetch_remote_error _ _ _ Herr). split; reflexivity.
Qed.

(** X14. When the database query raises for an article parsed from the
    resolved message, the handler raises that error: it is not answered as
    a page not found, and no update is issued. *)
Theorem query_error_propagates (data : json) (ev it : dict) (text : str)
    (a : article) (e : exn) :
  accepted_event SLACK_CHANNEL data ev it ->
  result_of (resolve SLACK_CHANNEL w it) = inr (JStr text) ->
  text <> [] ->
  result_of (parse_article_from_message text) = inr (Some a) ->
  notion_query w (url a) = inl e ->
  result_of (slack_events SLACK_CHANNEL w data) = inl e /\
  remote_calls (trace_of (slack_events SLACK_CHANNEL w data)) =
    [SlackReplies (JStr SLACK_CHANNEL) (dict_get it (u "ts") JNull);
     NotionQuery (url a)].
Proof.
  intros Hacc Hres Hne Hparse Herr. enter_pipeline Hacc.
  rewrite result_of_bind, calls_bind, fetch_calls, Hres.
  destruct text as [|c text]; [contradiction|].
  cbn [truthy negb parse_message].
  rewrite result_of_bind, calls_bind, parse_calls, Hparse.
  rewrite result_of_bind, calls_bind, find_calls.
  rewrite (find_remote_error _ Herr). split; reflexivity.
Qed.

(** X15. When the resolved message's text is a truthy value that is not a
    string (a number, a list, an object), the handler raises AttributeError
    at the parser's [splitlines] call, after the replies request alone. *)
Theorem non_string_text_raises (data : json) (ev it : dict) (text : json) :
  accepted_event SLACK_CHANNEL data ev it ->
  result_of (resolve SLACK_CHANNEL w it) = inr text ->
  truthy text = true ->
  (forall s, text <> JStr s) ->
  result_of (slack_events SLACK_CHANNEL w data) = inl AttributeError /\
  remote_calls (trace_of (slack_events SLACK_CHANNEL w data)) =
    [SlackReplies (JStr SLACK_CHANNEL) (dict_get it (u "ts") JNull)].
Proof.
  intros Hacc Hres Htruthy Hnos. enter_pipeline Hacc.
  rewrite result_of_bind, calls_bind, fetch_calls, Hres, Htruthy.
  cbn [negb].
  destruct text; try (split; reflexivity). now destruct (Hnos s).
Qed.

End Pipeline.

Lemma thumbsup_accepted :
  accepted_event (u "C1") (reaction_body "thumbsup" "C1")
    (reaction_event "thumbsup" "C1") (reaction_item "C1").
Proof.
  split; [eexists; repeat split; reflexivity | repeat split; reflexivity].
Defined.

Lemma handler_success_witness :
  accepted_event (u "C1") (reaction_body "thumbsup" "C1")
    (reaction_event "thumbsup" "C1") (reaction_item "C1") /\
  result_of (slack_events (u "C1") happy_world
               (reaction_body "thumbsup" "C1")) =
    inr (mkResponse (JObj [(u "message", JStr (u "Notion updated"));
                           (u "response", JObj [(u "my_score", JInt 1)])])
           200) /\
  remote_calls (trace_of (slack_events (u "C1") happy_world
                            (reaction_body "thumbsup" "C1"))) =
    [SlackReplies (JStr (u "C1")) (JStr (u "1"));
     NotionQuery (u "https://example.com/a");
     NotionUpdate (JStr (u "page")) 1].
Proof.
  split; [exact thumbsup_accepted|].
  assert (Hne : example_text <> []) by (vm_compute; discriminate).
  assert (Hparse : result_of (parse_article_from_message example_text) =
                   inr (Some example_article)) by (vm_compute; reflexivity).
  destruct (@handler_success (u "C1") happy_world _ _ _ example_text
              example_article (JStr (u "page"))
              (JObj [(u "my_score", JInt 1)])
              thumbsup_accepted eq_refl Hne Hparse eq_refl eq_refl eq_refl)
    as (Hcalls & Hok & _).
  split; [exact (Hok eq_refl eq_refl) | exact Hcalls].
Defined.

Lemma handler_answers_200_witness :
  result_of (slack_events (u "C1") happy_world
               (reaction_body "thumbsup" "C2")) =
    inr (message_response "Channel not monitored") /\
  status_code (message_response "Channel not monitored") = 200%Z.
Proof.
  assert (H : result_of (slack_events (u "C1") happy_world
                           (reaction_body "thumbsup" "C2")) =
              inr (message_response "Channel not monitored"))
    by (vm_compute; reflexivity).
  split; [exact H|].
  exact (@handler_answers_200 (u "C1") happy_world _ _ H).
Defined.

Lemma unhandled_event_type_witness :
  result_of (slack_events (u "C1") happy_world (JObj [])) =
  inr (message_response "Event type not handled").
Proof.
  rewrite (@unhandled_event_type (u "C1") happy_world [] []
             eq_refl eq_refl eq_refl).
  reflexivity.
Defined.

Lemma malformed_body_raises_witness :
  result_of (slack_events (u "C1") happy_world (JArr [])) =
  inl AttributeError.
Proof.
  refine (proj1 (@malformed_body_raises (u "C1") happy_world (JArr []) _)).
  intros o H. discriminate H.
Defined.

Lemma chat_error_propagates_witness :
  slack_replies slack_down_world (JStr (u "C1")) (JStr (u "1")) =
    inl (RemoteError (u "timeout")) /\
  result_of (slack_events (u "C1") slack_down_world
               (reaction_body "thumbsup" "C1")) =
    inl (RemoteError (u "timeout")).
Proof.
  split; [reflexivity|].
  exact (proj1 (@chat_error_propagates (u "C1") slack_down_world _ _ _
                  (RemoteError (u "timeout")) thumbsup_accepted eq_refl)).
Defined.

Lemma query_error_propagates_witness :
  notion_query query_down_world (u "https://example.com/a") =
    inl (RemoteError (u "timeout")) /\
  result_of (slack_events (u "C1") query_down_world
               (reaction_body "thumbsup" "C1")) =
    inl (RemoteError (u "timeout")).
Proof.
  split; [reflexivity|].
  assert (Hne : example_text <> []) by (vm_compute; discriminate).
  assert (Hparse : result_of (parse_article_from_message example_text) =
                   inr (Some example_article)) by (vm_compute; reflexivity).
  exact (proj1 (@query_error_propagates (u "C1") query_down_world _ _ _
                  example_text example_article (RemoteError (u "timeout"))
                  thumbsup_accepted eq_refl Hne Hparse eq_refl)).
Defined.

Lemma non_string_text_raises_witness :
  result_of (resolve (u "C1") numeric_text_world (reaction_item "C1")) =
    inr (JInt 7) /\
  result_of (slack_events (u "C1") numeric_text_world
               (reaction_body "thumbsup" "C1")) = inl AttributeError.
Proof.
  split; [reflexivity|].
  refine (proj1 (@non_string_text_raises (u "C1") numeric_text_world _ _ _
                   (JInt 7) thumbsup_accepted eq_refl eq_refl _)).
  intros s H. discriminate H.
Defined.

(** ** The Bolt listener against the primary endpoint *)

Lemma bolt_bind_ret {A C} (a : A) (f : A -> B C) :
  bolt_bind (bolt_ret a) f = f a.
Proof. unfold bolt_bind, bolt_ret. now destruct (f a). Qed.

Lemma bolt_bind_log {C} lvl fmt args (f : unit -> B C) :
  bolt_bind (bolt_log lvl fmt args) f =
  (BoltLog lvl fmt args :: bolt_trace (f tt), bolt_result (f tt)).
Proof. unfold bolt_bind, bolt_log. now destruct (f tt). Qed.

Lemma app_ret {A} (a : A) : app (ret a) = bolt_ret a.
Proof. reflexivity. Qed.

Lemma app_raise_bind {A C} (e : exn) (f : A -> B C) :
  bolt_bind (app (raise e)) f = ([], inl e).
Proof. reflexivity. Qed.

Lemma app_events_app (t : list event) : app_events (map App t) = t.
Proof. induction t as [|ev t IH]; [reflexivity|]. cbn. now f_equal. Qed.

Lemma bolt_result_pair {A} (t : list bolt_event) (r : exn + A) :
  bolt_result (t, r) = r.
Proof. reflexivity. Qed.

Lemma bolt_trace_pair {A} (t : list bolt_event) (r : exn + A) :
  bolt_trace (t, r) = t.
Proof. reflexivity. Qed.

Lemma bolt_calls_log {A} lvl fmt args (t : list bolt_event) (r : exn + A) :
  bolt_calls (BoltLog lvl fmt args :: t, r) = bolt_calls (t, r).
Proof. reflexivity. Qed.

Lemma bolt_calls_nil {A} (r : exn + A) : bolt_calls (@nil bolt_event, r) = [].
Proof. reflexivity. Qed.

Lemma bolt_calls_pair {A} (m : B A) :
  bolt_calls (bolt_trace m, bolt_result m) = bolt_calls m.
Proof. now destruct m. Qed.

Lemma bolt_result_bind_app {A C} (m : M A) (f : A -> B C) :
  bolt_result (bolt_bind (app m) f) =
  match result_of m with
  | inr a => bolt_result (f a)
  | inl e => inl e
  end.
Proof.
  destruct m as [t [e|a]]; cbn; [reflexivity|]. now destruct (f a).
Qed.

Lemma bolt_calls_bind_app {A C} (m : M A) (f : A -> B C) :
  bolt_calls (bolt_bind (app m) f) =
  remote_calls (trace_of m) ++
  match result_of m with
  | inr a => bolt_calls (f a)
  | inl _ => []
  end.
Proof.
  unfold bolt_calls, bolt_trace.
  destruct m as [t [e|a]]; cbn [app bolt_bind trace_of result_of fst snd].
  - now rewrite app_events_app, app_nil_r.
  - destruct (f a) as [t' r]. cbn [fst].
    unfold app_events. rewrite flat_map_app. fold (app_events (map App t)).
    now rewrite app_events_app, remote_calls_app.
Qed.

Create Rewrite HintDb bolt.
#[local] Hint Rewrite @bolt_bind_ret @bolt_bind_log @app_ret @app_raise_bind
  @bolt_result_pair @bolt_trace_pair @bolt_calls_log @bolt_calls_nil
  @bolt_calls_pair : bolt.

Ltac bolt_run :=
  repeat (autorewrite with bolt;
          cbn [py_get py_contains py_getitem py_iter py_first negb]).

Lemma bolt_score (reaction : json) :
  py_in reaction bolt_reactions = true ->
  (if py_eq reaction (JStr (u "thumbsup")) then 1%Z else 0%Z) =
  reaction_score reaction.
Proof.
  intros H. apply py_in_strs in H. cbn in H.
  destruct H as [<-|[<-|[]]]; reflexivity.
Qed.

(** Both runs stop at the same place with the same outcome. *)
Ltac agree_leaf :=
  split; [reflexivity|];
  split; [let H := fresh "Hx" in
          intros ? H;
          first [discriminate H | injection H as <-; reflexivity]|];
  split; [let H := fresh "Hx" in
          intros ? H; first [reflexivity | discriminate H]|];
  let H := fresh "Hx" in
  intros ? H;
  first [discriminate H | injection H as <-; left; reflexivity].

Section BoltListener.

Variable SLACK_CHANNEL : str.
Variable w : world.

(** X16. The listener does nothing for an event of another channel or with
    a reaction other than thumbsup and thumbsdown: it returns without
    raising and without any remote call. It does not look at the event's
    type, nor at a [challenge] key. *)
Theorem bolt_filtered_event (o ev it : dict) :
  dict_get o (u "event") (JObj []) = JObj ev ->
  dict_get ev (u "item") (JObj []) = JObj it ->
  monitored SLACK_CHANNEL it = false \/
  py_in (reaction_of ev) bolt_reactions = false ->
  bolt_result (bolt_reaction_added SLACK_CHANNEL w (JObj o)) = inr tt /\
  bolt_calls (bolt_reaction_added SLACK_CHANNEL w (JObj o)) = [].
Proof.
  intros Hev Hit H. unfold monitored, reaction_of in H.
  unfold bolt_reaction_added. bolt_run. rewrite Hev. bolt_run.
  rewrite Hit. bolt_run.
  destruct (py_eq (dict_get it (u "channel") JNull) (JStr SLACK_CHANNEL));
    bolt_run; [|split; reflexivity].
  destruct (py_in (dict_get ev (u "reaction") JNull) bolt_reactions);
    bolt_run; [|split; reflexivity].
  destruct H as [H|H]; discriminate H.
Qed.

(** X17. The two endpoints disagree on the synonyms: for an event the
    primary endpoint accepts with reaction +1, o, -1 or x, the primary
    endpoint goes on to the replies request while the listener returns
    without any remote call. *)
Theorem bolt_rejects_synonyms (data : json) (ev it : dict) :
  accepted_event SLACK_CHANNEL data ev it ->
  In (reaction_of ev) synonym_reactions ->
  (bolt_result (bolt_reaction_added SLACK_CHANNEL w data) = inr tt /\
   bolt_calls (bolt_reaction_added SLACK_CHANNEL w data) = []) /\
  exists rest,
    remote_calls (trace_of (slack_events SLACK_CHANNEL w data)) =
    SlackReplies (JStr SLACK_CHANNEL) (dict_get it (u "ts") JNull) :: rest.
Proof.
  intros Hacc Hsyn.
  assert (Hno : py_in (reaction_of ev) bolt_reactions = false).
  { cbn in Hsyn. destruct Hsyn as [<-|[<-|[<-|[<-|[]]]]]; reflexivity. }
  split.
  - destruct Hacc as ((o & -> & Hc & Hev & Hit) & Hty & Hmon & Hrec).
    unfold monitored, reaction_of in *.
    unfold bolt_reaction_added. bolt_run. rewrite Hev. bolt_run.
    rewrite Hit. bolt_run. rewrite Hmon. bolt_run. rewrite Hno. bolt_run.
    split; reflexivity.
  - pose proof (accepted_channel Hacc) as Hch.
    destruct Hacc as ((o & -> & Hc & Hev & Hit) & Hty & Hmon & Hrec).
    unfold reaction_added, monitored, recognized, reaction_of in *.
    unfold slack_events. run.
    rewrite Hc. run. rewrite Hev. run. rewrite Hty, Hit. run.
    rewrite Hmon. run. rewrite Hrec. run. cbv zeta. rewrite Hch.
    rewrite calls_bind, fetch_calls. eexists. reflexivity.
Qed.

(** X18. On thumbsup and thumbsdown the listener does what the primary
    endpoint does: for an event the primary endpoint accepts with one of
    these two reactions, both issue the same remote calls with the same
    score; an error the listener raises is the error the primary endpoint
    raises, and the listener returns normally when the primary endpoint
    answers. The one difference: when the update's response cannot be
    rendered, the primary endpoint raises while building its answer and
    the listener, which builds none, returns. *)
Theorem bolt_agrees_with_primary (data : json) (ev it : dict) :
  accepted_event SLACK_CHANNEL data ev it ->
  py_in (reaction_of ev) bolt_reactions = true ->
  bolt_calls (bolt_reaction_added SLACK_CHANNEL w data) =
    remote_calls (trace_of (slack_events SLACK_CHANNEL w data)) /\
  (forall e,
      bolt_result (bolt_reaction_added SLACK_CHANNEL w data) = inl e ->
      result_of (slack_events SLACK_CHANNEL w data) = inl e) /\
  (forall r,
      result_of (slack_events SLACK_CHANNEL w data) = inr r ->
      bolt_result (bolt_reaction_added SLACK_CHANNEL w data) = inr tt) /\
  (forall e,
      result_of (slack_events SLACK_CHANNEL w data) = inl e ->
      bolt_result (bolt_reaction_added SLACK_CHANNEL w data) = inl e \/
      (bolt_result (bolt_reaction_added SLACK_CHANNEL w data) = inr tt /\
       exists page_id resp,
         notion_update w page_id (reaction_score (reaction_of ev)) =
           inr resp /\
         render_error (success_content resp) = Some e)).
Proof.
  intros Hacc Hbolt.
  pose proof (accepted_channel Hacc) as Hch.
  pose proof (bolt_score _ Hbolt) as Hscore.
  destruct Hacc as ((o & -> & Hc & Hev & Hit) & Hty & Hmon & Hrec).
  unfold reaction_added, monitored, recognized, reaction_of in *.
  unfold slack_events. run.
  rewrite Hc. run. rewrite Hev. run. rewrite Hty, Hit. run.
  rewrite Hmon. run. rewrite Hrec. run. cbv zeta.
  unfold bolt_reaction_added. bolt_run. rewrite Hev. bolt_run.
  rewrite Hit. bolt_run. rewrite Hmon. bolt_run. rewrite Hbolt. bolt_run.
  cbv zeta. rewrite Hscore, Hch.
  rewrite bolt_calls_bind_app, bolt_result_bind_app, calls_bind,
    result_of_bind.
  destruct (result_of (fetch_slack_message w _ _ _)) as [e|text];
    [agree_leaf|].
  destruct (truthy text); bolt_run; run; [|agree_leaf].
  rewrite bolt_calls_bind_app, bolt_result_bind_app, calls_bind,
    result_of_bind.
  destruct (result_of (parse_message text)) as [e|[a|]]; bolt_run; run;
    [agree_leaf | | agree_leaf].
  rewrite bolt_calls_bind_app, bolt_result_bind_app, calls_bind,
    result_of_bind.
  destruct (result_of (find_notion_page_by_url w (url a))) as [e|pid];
    [agree_leaf|].
  destruct (truthy pid); bolt_run; run; [|agree_leaf].
  rewrite bolt_calls_bind_app, bolt_result_bind_app, calls_bind,
    result_of_bind, update_result.
  destruct (notion_update w pid _) as [e|resp] eqn:Hupd; bolt_run; run;
    [agree_leaf|].
  change (JObj [(u "message", JStr (u "Notion updated"));
                (u "response", resp)]) with (success_content resp).
  unfold new_JSONResponse.
  destruct (render_error (success_content resp)) as [e|] eqn:Hrender; run;
    [|agree_leaf].
  split; [reflexivity|]. split; [discriminate|]. split; [discriminate|].
  intros e0 [= <-]. right. split; [reflexivity|].
  exists pid, resp. now split.
Qed.

End BoltListener.

Lemma bolt_filtered_event_witness :
  py_in (reaction_of (reaction_event "heart" "C1")) bolt_reactions = false /\
  bolt_result (bolt_reaction_added (u "C1") happy_world
                 (reaction_body "heart" "C1")) = inr tt /\
  bolt_calls (bolt_reaction_added (u "C1") happy_world
                (reaction_body "heart" "C1")) = [].
Proof.
  split; [reflexivity|].
  exact (@bolt_filtered_event (u "C1") happy_world
           [(u "event", JObj (reaction_event "heart" "C1"))]
           (reaction_event "heart" "C1") (reaction_item "C1")
           eq_refl eq_refl (or_intror eq_refl)).
Defined.

Lemma bolt_rejects_synonyms_witness :
  accepted_event (u "C1") (reaction_body "+1" "C1")
    (reaction_event "+1" "C1") (reaction_item "C1") /\
  bolt_calls (bolt_reaction_added (u "C1") happy_world
                (reaction_body "+1" "C1")) = [] /\
  exists rest,
    remote_calls (trace_of (slack_events (u "C1") happy_world
                              (reaction_body "+1" "C1"))) =
    SlackReplies (JStr (u "C1")) (JStr (u "1")) :: rest.
Proof.
  assert (Hacc : accepted_event (u "C1") (reaction_body "+1" "C1")
                   (reaction_event "+1" "C1") (reaction_item "C1")).
  { split; [eexists; repeat split; reflexivity | repeat split; reflexivity]. }
  split; [exact Hacc|].
  destruct (@bolt_rejects_synonyms (u "C1") happy_world _ _ _ Hacc
              (or_introl eq_refl)) as [[_ Hcalls] Hprimary].
  split; [exact Hcalls | exact Hprimary].
Defined.

Lemma bolt_agrees_with_primary_witness :
  py_in (reaction_of (reaction_event "thumbsup" "C1")) bolt_reactions = true /\
  bolt_calls (bolt_reaction_added (u "C1") happy_world
                (reaction_body "thumbsup" "C1")) =
    [SlackReplies (JStr (u "C1")) (JStr (u "1"));
     NotionQuery (u "https://example.com/a");
     NotionUpdate (JStr (u "page")) 1].
Proof.
  split; [reflexivity|].
  rewrite (proj1 (@bolt_agrees_with_primary (u "C1") happy_world _ _ _
                    thumbsup_accepted eq_refl)).
  vm_compute. reflexivity.
Defined.
